(** * YouTube comments downloader: the retrieval and labelling pipeline of app.py

    A shallow embedding of [extract_video_id], [fetch_all_comments],
    [analyze_comments] and [fetch_route], and the properties the
    specification states about them.

    Python strings are lists of characters; characters are [ascii]
    (a code point beyond 255 behaves like any character outside the
    classes and literals of the two patterns). *)

From Stdlib Require Import List Ascii String Bool Arith ZArith Lia.
From Stdlib Require Import QArith Qpower.
From Stdlib Require Import Floats.SpecFloat.
From Stdlib Require DecimalString.
Import ListNotations.
Close Scope Q_scope.
Open Scope nat_scope.
Open Scope list_scope.

Set Implicit Arguments.

Abbreviation length := List.length.

(** ** Strings *)

Definition str := list ascii.

(** A string literal of the source. *)
Definition chars (s : string) : str := list_ascii_of_string s.

Fixpoint str_eqb (a b : str) : bool :=
  match a, b with
  | [], [] => true
  | x :: a', y :: b' => Ascii.eqb x y && str_eqb a' b'
  | _, _ => false
  end.

(** ** The fragment of Python's [re] that the two patterns use *)

Module Re.

Inductive regex : Type :=
| Eps                                  (* the empty pattern *)
| Chr (c : ascii)                      (* a literal character *)
| Class (ranges : list (ascii * ascii)) (* [a-z...]: inclusive ranges *)
| Seq (r1 r2 : regex)                  (* r1 r2 *)
| Alt (r1 r2 : regex)                  (* r1|r2 *)
| Count (n : nat) (r : regex)          (* r{n} *)
| Group (r : regex)                    (* ( r ), the capturing group *)
| Dollar.                              (* $ *)

Definition in_range (c : ascii) (lohi : ascii * ascii) : bool :=
  (nat_of_ascii (fst lohi) <=? nat_of_ascii c) &&
  (nat_of_ascii c <=? nat_of_ascii (snd lohi)).

Definition in_class (ranges : list (ascii * ascii)) (c : ascii) : bool :=
  existsb (in_range c) ranges.

(** [$] without MULTILINE: the end of the string, or just before a
    newline that is the last character. *)
Definition at_end (s : str) : bool :=
  match s with
  | [] => true
  | [c] => Ascii.eqb c "010"%char
  | _ => false
  end.

(** The literal string [l], character by character. *)
Fixpoint Lit (l : str) : regex :=
  match l with
  | [] => Eps
  | c :: l' => Seq (Chr c) (Lit l')
  end.

(** The alternation of a non-empty list of branches, in order. *)
Fixpoint Alts (r : regex) (rs : list regex) : regex :=
  match rs with
  | [] => r
  | r' :: rs' => Alt r (Alts r' rs')
  end.

Section Matcher.
Variable R : Type.

(** A backtracking matcher in continuation-passing style: [s] is the
    rest of the subject, [cap] the text of group 1 so far, [k] what is
    left of the pattern.  Alternatives are tried left to right and the
    first one whose continuation succeeds wins, as in [re]. *)
Fixpoint run (r : regex) (s : str) (cap : option str)
         (k : str -> option str -> option R) {struct r} : option R :=
  match r with
  | Eps => k s cap
  | Chr c =>
      match s with
      | x :: s' => if Ascii.eqb x c then k s' cap else None
      | [] => None
      end
  | Class ranges =>
      match s with
      | x :: s' => if in_class ranges x then k s' cap else None
      | [] => None
      end
  | Seq r1 r2 => run r1 s cap (fun s' cap' => run r2 s' cap' k)
  | Alt r1 r2 =>
      match run r1 s cap k with
      | Some m => Some m
      | None => run r2 s cap k
      end
  | Count n r1 =>
      (fix rep (n : nat) (s : str) (cap : option str)
           (k : str -> option str -> option R) {struct n} : option R :=
         match n with
         | O => k s cap
         | S n' => run r1 s cap (fun s' cap' => rep n' s' cap' k)
         end) n s cap k
  | Group r1 =>
      run r1 s cap
          (fun s' _ => k s' (Some (firstn (length s - length s') s)))
  | Dollar => if at_end s then k s cap else None
  end.
End Matcher.

(** A match object, reduced to what the caller reads: the text of
    group 1 ([None] when the group took no part in the match). *)
Definition match_object := option str.

(** [m.group(1)] *)
Definition group1 (m : match_object) : option str := m.

(** [re.match]: the pattern at the start of [s]. *)
Definition match_at (r : regex) (s : str) : option match_object :=
  run r s None (fun _ cap => Some cap).

(** [re.search]: the leftmost position at which the pattern matches. *)
Fixpoint search (r : regex) (s : str) : option match_object :=
  match match_at r s with
  | Some m => Some m
  | None =>
      match s with
      | [] => None
      | _ :: s' => search r s'
      end
  end.

End Re.

(** ** extract_video_id *)

(** [[A-Za-z0-9_-]] *)
Definition id_class : list (ascii * ascii) :=
  [("A", "Z"); ("a", "z"); ("0", "9"); ("_", "_"); ("-", "-")]%char.

Definition is_id_char (c : ascii) : bool := Re.in_class id_class c.

(** The markers of the first pattern, in the order of its alternation. *)
Definition markers : list str :=
  [chars "v="; chars "v/"; chars "embed/"; chars "youtu.be/"; chars "/v/"].

(** [(?:v=|v\/|embed\/|youtu\.be\/|\/v\/)([A-Za-z0-9_-]{11})] *)
Definition marker_pattern : Re.regex :=
  Re.Seq
    (Re.Alts (Re.Lit (chars "v="))
       [Re.Lit (chars "v/"); Re.Lit (chars "embed/");
        Re.Lit (chars "youtu.be/"); Re.Lit (chars "/v/")])
    (Re.Group (Re.Count 11 (Re.Class id_class))).

(** [([A-Za-z0-9_-]{11})$] *)
Definition fallback_pattern : Re.regex :=
  Re.Seq (Re.Group (Re.Count 11 (Re.Class id_class))) Re.Dollar.

Definition patterns : list Re.regex := [marker_pattern; fallback_pattern].

(** The [for pat in patterns] loop: the first pattern that matches
    returns its group 1. *)
Fixpoint first_match (pats : list Re.regex) (url : str) : option str :=
  match pats with
  | [] => None
  | pat :: rest =>
      match Re.search pat url with
      | Some m => Re.group1 m
      | None => first_match rest url
      end
  end.

Definition extract_video_id (url : str) : option str :=
  match url with
  | [] => None                       (* if not url: return None *)
  | _ => first_match patterns url
  end.

(** ** JSON values, as [resp.json()] and [request.get_json()] return them *)

#[local] Unset Elimination Schemes.
Inductive json : Type :=
| JNull                                (* None *)
| JBool (b : bool)
| JInt (n : Z)
| JFloat (f : spec_float)
| JStr (s : str)
| JArr (l : list json)                 (* a list *)
| JObj (kv : list (str * json)).       (* a dict: its items, in order *)
#[local] Set Elimination Schemes.

(** The value under [key]. The keys of a dict are distinct; of two
    bindings of a key the first counts. *)
Fixpoint assoc (key : str) (kv : list (str * json)) : option json :=
  match kv with
  | [] => None
  | (k, v) :: kv' => if str_eqb k key then Some v else assoc key kv'
  end.

(** An f-string before it is rendered: Python renders an interpolated
    value with [str()], which for a string is the string itself. *)
Inductive piece : Type :=
| Text (s : str)
| Value (v : json).

Definition fstring := list piece.

Inductive exn : Type :=
| RuntimeError (msg : fstring)
| KeyError (key : str)
| TypeError
| AttributeError
| RequestException                     (* raised by [session.get] *)
| OtherError (name : str).             (* any other exception, by its class *)

Inductive result (A : Type) : Type :=
| Ok (a : A)
| Raise (e : exn).

Arguments Ok {A} a.
Arguments Raise {A} e.

Definition bind {A B : Type} (m : result A) (f : A -> result B) : result B :=
  match m with
  | Ok a => f a
  | Raise e => Raise e
  end.

Notation "x <- m ;; k" := (bind m (fun x => k))
  (at level 61, m at next level, right associativity).

(** [v[key]] for a string key: only a dict can be subscripted by one. *)
Definition py_getitem (v : json) (key : str) : result json :=
  match v with
  | JObj kv =>
      match assoc key kv with
      | Some x => Ok x
      | None => Raise (KeyError key)
      end
  | _ => Raise TypeError
  end.

(** [v.get(key, default)]: only a dict has the method. *)
Definition py_get (v : json) (key : str) (default : json) : result json :=
  match v with
  | JObj kv =>
      match assoc key kv with
      | Some x => Ok x
      | None => Ok default
      end
  | _ => Raise AttributeError
  end.

(** Truth value, as [if v] and [not v] test it. *)
Definition py_truthy (v : json) : bool :=
  match v with
  | JNull => false
  | JBool b => b
  | JInt n => negb (n =? 0)%Z
  | JFloat f => match f with S754_zero _ => false | _ => true end
  | JStr s => match s with [] => false | _ => true end
  | JArr l => match l with [] => false | _ => true end
  | JObj kv => match kv with [] => false | _ => true end
  end.

(** [for it in v]: the elements of a list, the keys of a dict, the
    characters of a string; nothing else is iterable. *)
Definition py_iter (v : json) : result (list json) :=
  match v with
  | JArr l => Ok l
  | JObj kv => Ok (map (fun p => JStr (fst p)) kv)
  | JStr s => Ok (map (fun c => JStr [c]) s)
  | _ => Raise TypeError
  end.

(** [str(n)] for an int. *)
Definition str_of_int (n : Z) : str :=
  chars (DecimalString.NilZero.string_of_int (Z.to_int n)).

(** [str(v)] for the values whose text the model fixes; the text of a
    float, a list or a dict is left open. *)
Definition py_str (v : json) : option str :=
  match v with
  | JStr s => Some s
  | JNull => Some (chars "None")
  | JBool true => Some (chars "True")
  | JBool false => Some (chars "False")
  | JInt n => Some (str_of_int n)
  | _ => None
  end.

Fixpoint render (f : fstring) : option str :=
  match f with
  | [] => Some []
  | Text s :: f' => option_map (app s) (render f')
  | Value v :: f' =>
      match py_str v, render f' with
      | Some s, Some t => Some (s ++ t)
      | _, _ => None
      end
  end.

(** ** fetch_all_comments *)

(** The [params] dict of the request. *)
Record params : Type := {
  part : str;
  videoId : str;
  textFormat : str;
  key : json;
  maxResults : Z;
  pageToken : option json
}.

Definition set_pageToken (p : params) (tok : json) : params :=
  {| part := part p; videoId := videoId p; textFormat := textFormat p;
     key := key p; maxResults := maxResults p; pageToken := Some tok |}.

(** What [session.get] comes back with. [resp_json] is [resp.json()],
    [None] when it raises [ValueError]. *)
Record response : Type := {
  status_code : Z;
  resp_json : option json
}.

Inductive reply : Type :=
| Reply (r : response)
| NoReply.                             (* timeout or transport failure *)

(** The remote side, as one run meets it: the reply to the i-th request
    the run sends, which may depend on what the request holds. *)
Definition api := nat -> params -> reply.

(** An API that answers the i-th request with [r i], whatever is sent. *)
Definition answering (r : nat -> reply) : api := fun i _ => r i.

(** [session.get(base_url, params=params, timeout=15)]: the request is
    appended to the log of requests sent. *)
Definition session_get (a : api) (log : list params) (p : params)
  : result response * list params :=
  match a (length log) p with
  | Reply r => (Ok r, log ++ [p])
  | NoReply => (Raise RequestException, log ++ [p])
  end.

Definition invalid_json_message : fstring :=
  [Text (chars "Invalid JSON response from YouTube API")].

Definition api_error_message (message : json) : fstring :=
  [Text (chars "YouTube API error: "); Value message].

(** [f"HTTP {resp.status_code}"] *)
Definition http_status_message (status : Z) : json :=
  JStr (chars "HTTP " ++ str_of_int status).

(** [it["snippet"]["topLevelComment"]["snippet"]["textDisplay"]] *)
Definition text_display (it : json) : result json :=
  a <- py_getitem it (chars "snippet") ;;
  b <- py_getitem a (chars "topLevelComment") ;;
  c <- py_getitem b (chars "snippet") ;;
  py_getitem c (chars "textDisplay").

(** The [for it in items] loop with its [try ... except KeyError]. *)
Fixpoint collect (items : list json) (comments : list json)
  : result (list json) :=
  match items with
  | [] => Ok comments
  | it :: rest =>
      match text_display it with
      | Ok txt => collect rest (comments ++ [txt])
      | Raise (KeyError _) => collect rest comments
      | Raise e => Raise e
      end
  end.

(** How one turn of [while True] ends. *)
Inductive turn : Type :=
| Break (comments : list json)
| Continue (p : params) (comments : list json).

(** The body of the loop, from the response on. *)
Definition handle_response (resp : response) (p : params)
           (comments : list json) : result turn :=
  match resp_json resp with
  | None => Raise (RuntimeError invalid_json_message)
  | Some data =>
      if negb (status_code resp =? 200)%Z then
        err <- py_get data (chars "error") (JObj []) ;;
        message <- py_get err (chars "message")
                     (http_status_message (status_code resp)) ;;
        Raise (RuntimeError (api_error_message message))
      else
        items <- py_get data (chars "items") (JArr []) ;;
        its <- py_iter items ;;
        comments' <- collect its comments ;;
        next_token <- py_get data (chars "nextPageToken") JNull ;;
        if negb (py_truthy next_token) then Ok (Break comments')
        else Ok (Continue (set_pageToken p next_token) comments')
  end.

(** [while True]: [fuel] bounds the number of turns the model follows;
    [None] means the loop is still running after [fuel] turns. *)
Fixpoint fetch_loop (fuel : nat) (a : api) (log : list params) (p : params)
         (comments : list json)
  : option (result (list json)) * list params :=
  match fuel with
  | O => (None, log)
  | S fuel' =>
      match session_get a log p with
      | (Raise e, log') => (Some (Raise e), log')
      | (Ok resp, log') =>
          match handle_response resp p comments with
          | Raise e => (Some (Raise e), log')
          | Ok (Break comments') => (Some (Ok comments'), log')
          | Ok (Continue p' comments') => fetch_loop fuel' a log' p' comments'
          end
      end
  end.

Definition fetch_all_comments (fuel : nat) (a : api) (log : list params)
           (video_id : str) (api_key : json) (max_results_per_page : Z)
  : option (result (list json)) * list params :=
  fetch_loop fuel a log
    {| part := chars "snippet"; videoId := video_id;
       textFormat := chars "plainText"; key := api_key;
       maxResults := max_results_per_page; pageToken := None |}
    [].

(** ** analyze_comments *)

(** A row of the DataFrame. *)
Record row : Type := {
  comment : json;
  sentiment : Z
}.

(** [0] as a float. *)
Definition float_zero : spec_float := S754_zero false.

(** [score >= 0] *)
Definition score_ge_zero (score : spec_float) : bool := SFleb float_zero score.

(** [scorer c] is [sia.polarity_scores(c)["compound"]]. *)
Fixpoint analyze_comments (scorer : json -> spec_float) (comments : list json)
  : list row :=
  match comments with
  | [] => []
  | c :: rest =>
      let score := scorer c in
      let label := if score_ge_zero score then 1%Z else 0%Z in
      {| comment := c; sentiment := label |} :: analyze_comments scorer rest
  end.

(** ** The file the route sends *)

(** The pandas writer that turns the DataFrame into the bytes sent. *)
Inductive writer : Type :=
| to_excel                             (* df.to_excel(writer, index=False) *)
| to_csv                               (* df.to_csv(index=False) *)
| to_json                              (* df.to_json(orient="records", ...) *)
| to_html.                             (* df.to_html(index=False) *)

(** The arguments of [send_file] that depend on the format. *)
Record attachment : Type := {
  written_by : writer;
  download_name : str;
  mimetype : str
}.

(** The [if file_format == "xlsx" ... else ...] chain that prepares the
    file: what [SendFile file_format df] sends. *)
Definition attachment_for (file_format : str) : attachment :=
  if str_eqb file_format (chars "xlsx") then
    {| written_by := to_excel;
       download_name := chars "yt_comments.xlsx";
       mimetype :=
         chars "application/vnd.openxmlformats-officedocument.spreadsheetml.sheet" |}
  else if str_eqb file_format (chars "csv") then
    {| written_by := to_csv;
       download_name := chars "yt_comments.csv";
       mimetype := chars "text/csv" |}
  else if str_eqb file_format (chars "json") then
    {| written_by := to_json;
       download_name := chars "yt_comments.json";
       mimetype := chars "application/json" |}
  else                                 (* html *)
    {| written_by := to_html;
       download_name := chars "yt_comments.html";
       mimetype := chars "text/html" |}.

(** ** fetch_route *)

Inductive http_response : Type :=
| JsonError (status : Z) (error : str)   (* jsonify({"error": ...}), status *)
| JsonException (e : exn)                (* jsonify({"error": str(exc)}), 500 *)
| SendFile (file_format : str) (df : list row)
| Uncaught (e : exn).                    (* raised out of the view *)

(** [s.lower()]: the letters A-Z become a-z (no other character of the
    model has a lower-case form among the letters of the four format
    names). *)
Definition lower_char (c : ascii) : ascii :=
  if Re.in_range c ("A", "Z")%char
  then ascii_of_nat (nat_of_ascii c + 32) else c.

Definition py_lower (v : json) : result str :=
  match v with
  | JStr s => Ok (map lower_char s)
  | _ => Raise AttributeError
  end.

(** [a or b] *)
Definition py_or (a b : json) : json := if py_truthy a then a else b.

Definition formats : list str :=
  [chars "csv"; chars "json"; chars "xlsx"; chars "html"].

Definition could_not_extract : str :=
  chars "Could not extract video id. Provide a full YouTube URL or video id.".

(** [analyze_comments] as the view runs it, with a scorer that may raise
    on a comment (on one that is not text, say): the first error ends
    the labelling. With a scorer that never raises it is
    [analyze_comments]. *)
Fixpoint analyze_comments_raising (scorer : json -> result spec_float)
         (comments : list json) : result (list row) :=
  match comments with
  | [] => Ok []
  | c :: rest =>
      score <- scorer c ;;
      rows <- analyze_comments_raising scorer rest ;;
      Ok ({| comment := c;
             sentiment := if score_ge_zero score then 1%Z else 0%Z |} :: rows)
  end.

(** The view, from the parsed payload on ([data] is [None] when the body
    is not JSON). [scorer] is the sentiment scorer, which may raise;
    [write_error w df] is the exception, if any, that making the file
    raises once the rows [df] are labelled: building the DataFrame,
    the pandas writer [w], the encoding of its text and [send_file].
    Whatever is raised from the fetch on is caught and answered with
    status 500. The result is the response and the log of the requests
    sent to the API; the response is [None] when the fetch loop is still
    running after [fuel] turns. *)
Definition fetch_route (fuel : nat) (a : api)
           (scorer : json -> result spec_float)
           (write_error : writer -> list row -> option exn)
           (data : option json) : option http_response * list params :=
  match data with
  | None => (Some (JsonError 400 (chars "Invalid JSON payload")), [])
  | Some data =>
  if negb (py_truthy data)
  then (Some (JsonError 400 (chars "Invalid JSON payload")), [])
  else
  match py_get data (chars "api_key") JNull with
  | Raise e => (Some (Uncaught e), [])
  | Ok api_key =>
  match py_get data (chars "video_url") JNull with
  | Raise e => (Some (Uncaught e), [])
  | Ok video_url =>
  match (f <- py_get data (chars "format") JNull ;;
         py_lower (py_or f (JStr (chars "csv")))) with
  | Raise e => (Some (Uncaught e), [])
  | Ok file_format =>
  if negb (py_truthy api_key)
  then (Some (JsonError 400 (chars "Missing api_key")), [])
  else if negb (py_truthy video_url)
  then (Some (JsonError 400 (chars "Missing video_url")), [])
  else if negb (existsb (str_eqb file_format) formats)
  then (Some (JsonError 400 (chars "Unsupported format")), [])
  else
  match video_url with
  | JStr url =>
      match extract_video_id url with
      | None => (Some (JsonError 400 could_not_extract), [])
      | Some vid =>
          match fetch_all_comments fuel a [] vid api_key 100 with
          | (None, log) => (None, log)
          | (Some (Raise exc), log) => (Some (JsonException exc), log)
          | (Some (Ok comments), log) =>
              match analyze_comments_raising scorer comments with
              | Raise exc => (Some (JsonException exc), log)
              | Ok df =>
                  match write_error (written_by (attachment_for file_format))
                                    df with
                  | Some exc => (Some (JsonException exc), log)
                  | None => (Some (SendFile file_format df), log)
                  end
              end
          end
      end
  | _ => (Some (Uncaught TypeError), [])  (* re.search on a non-string *)
  end
  end end end end.

(** ** The notions the specification is stated with *)

(** A video id: exactly 11 characters of [[A-Za-z0-9_-]]. *)
Definition valid_id (t : str) : bool :=
  (length t =? 11) && forallb is_id_char t.

(** The last [n] characters of [s] (all of [s] when it is shorter). *)
Definition last_n (n : nat) (s : str) : str := skipn (length s - n) s.

Definition newline : ascii := "010"%char.

(** The marker pattern finds no token in [s]. *)
Definition marker_free (s : str) : Prop :=
  Re.search marker_pattern s = None.

(** The URL shapes that carry the token [t]: the bare id, and a URL in
    which one of the markers is followed by [t], nothing before the
    token being itself a marker followed by 11 id characters. *)
Inductive url_shape (t : str) : str -> Prop :=
| shape_bare : url_shape t t
| shape_marker (before m rest : str) :
    In m markers -> marker_free (before ++ m) ->
    url_shape t (before ++ m ++ t ++ rest).

(** The field [key] of a JSON object. *)
Definition field (key : str) (v : json) : option json :=
  match v with
  | JObj kv => assoc key kv
  | _ => None
  end.

(** The nested display text of an item, when every field on the way to
    it is there. *)
Definition item_text (it : json) : option json :=
  match field (chars "snippet") it with
  | None => None
  | Some a =>
      match field (chars "topLevelComment") a with
      | None => None
      | Some b =>
          match field (chars "snippet") b with
          | None => None
          | Some c => field (chars "textDisplay") c
          end
      end
  end.

(** The texts of the items that have one, in item order. *)
Definition extractable_texts (items : list json) : list json :=
  flat_map (fun it => match item_text it with
                      | Some txt => [txt]
                      | None => []
                      end) items.

(** [v] is an object, and so is each value reached by following [path]
    in it, up to the first field that is absent. *)
Fixpoint objects_along (path : list str) (v : json) : bool :=
  match path with
  | [] => true
  | k :: path' =>
      match v with
      | JObj kv =>
          match assoc k kv with
          | Some x => objects_along path' x
          | None => true
          end
      | _ => false
      end
  end.

Definition text_path : list str :=
  [chars "snippet"; chars "topLevelComment"; chars "snippet";
   chars "textDisplay"].

(** An item as the API lists it: an object that may or may not contain
    the nested display text. *)
Definition item_object (it : json) : bool := objects_along text_path it.

(** The item list of a page: the array under ["items"], empty when the
    field is absent. *)
Definition page_items (data : json) : option (list json) :=
  match data with
  | JObj kv =>
      match assoc (chars "items") kv with
      | None => Some []
      | Some (JArr l) => Some l
      | Some _ => None
      end
  | _ => None
  end.

(** A page of the API: an object with a list of items. *)
Definition api_page (data : json) : bool :=
  match page_items data with
  | Some items => forallb item_object items
  | None => false
  end.

Definition page_texts (data : json) : list json :=
  match page_items data with
  | Some items => extractable_texts items
  | None => []
  end.

(** The continuation cursor field of a page. *)
Definition page_cursor (data : json) : option json :=
  field (chars "nextPageToken") data.

(** The page carries a cursor to continue with: the field is there and
    its value is not null, false, zero or empty. *)
Definition has_cursor (data : json) : bool :=
  match page_cursor data with
  | Some tok => py_truthy tok
  | None => false
  end.

(** The successful response that delivers the page [data]. *)
Definition page_response (data : json) : response :=
  {| status_code := 200; resp_json := Some data |}.

(** The request for a page of the comments of [video_id]: the fixed
    parameters, the key, the page size and the cursor, if any. *)
Definition page_request (video_id : str) (api_key : json) (max_results : Z)
           (cursor : option json) : params :=
  {| part := chars "snippet"; videoId := video_id;
     textFormat := chars "plainText"; key := api_key;
     maxResults := max_results; pageToken := cursor |}.

(** The cursor that asks for the page number [i] of [pages]: [first]
    for the first of them, the cursor of the page before for another. *)
Definition cursor_before (first : option json) (pages : list json) (i : nat)
  : option json :=
  match i with
  | O => first
  | S j =>
      match nth_error pages j with
      | Some data => page_cursor data
      | None => None
      end
  end.

(** From its [n]-th request on, the API hands out the pages [pages] to
    who asks for them: it answers with a page when the request is the
    one for that page, with the cursor of the page before ([first] for
    the first page). What it answers to other requests is left open. *)
Definition serves_from (a : api) (n : nat) (video_id : str) (api_key : json)
           (max_results : Z) (first : option json) (pages : list json)
  : Prop :=
  forall i data,
    nth_error pages i = Some data ->
    a (n + i)
      (page_request video_id api_key max_results
         (cursor_before first pages i)) =
    Reply (page_response data).

(** The API hands out [pages] to the run that asks for the comments of
    [video_id]: the first page to the request without a cursor, each
    other page to the request with the cursor of the page before. *)
Definition serves (a : api) (video_id : str) (api_key : json)
           (max_results : Z) (pages : list json) : Prop :=
  serves_from a 0 video_id api_key max_results None pages.

(** The comments a turn of the loop leaves in the accumulator. *)
Definition turn_comments (t : turn) : list json :=
  match t with
  | Break comments => comments
  | Continue _ comments => comments
  end.

(** A reply that the loop body handles without raising: status 200 and
    a JSON object whose ["items"], when present, can be iterated and
    holds only items that are objects down the path to the text. *)
Definition successful_page (r : reply) : bool :=
  match r with
  | Reply resp =>
      (status_code resp =? 200)%Z &&
      match resp_json resp with
      | Some (JObj kv) =>
          match assoc (chars "items") kv with
          | None => true
          | Some v =>
              match py_iter v with
              | Ok its => forallb item_object its
              | Raise _ => false
              end
          end
      | _ => false
      end
  | NoReply => false
  end.

(** The reply carries a cursor to continue with. *)
Definition reply_has_cursor (r : reply) : bool :=
  match r with
  | Reply resp =>
      match resp_json resp with
      | Some data => has_cursor data
      | None => false
      end
  | NoReply => false
  end.


(** The payload of a request to the route asks for one of the four
    formats, or for none (then csv). *)
Definition supported_format (data : json) : bool :=
  match field (chars "format") data with
  | None => true
  | Some f =>
      match py_lower (py_or f (JStr (chars "csv"))) with
      | Ok s => existsb (str_eqb s) formats
      | Raise _ => false
      end
  end.

(** The format the payload asks for, when it is a supported one. *)
Definition requested_format (data : json) : option str :=
  match field (chars "format") data with
  | None => Some (chars "csv")
  | Some f =>
      match py_lower (py_or f (JStr (chars "csv"))) with
      | Ok s => if existsb (str_eqb s) formats then Some s else None
      | Raise _ => None
      end
  end.

(** The exact value of a finite float. *)
Definition float_value (f : spec_float) : option Q :=
  match f with
  | S754_zero _ => Some 0%Q
  | S754_finite s m e =>
      Some ((if s then -1 else 1) * inject_Z (Zpos m) * Qpower 2 e)%Q
  | _ => None
  end.

(** The texts the loop body takes from a response body: those of the
    items it iterates over. *)
Definition body_texts (data : json) : list json :=
  match data with
  | JObj kv =>
      match assoc (chars "items") kv with
      | None => []
      | Some v =>
          match py_iter v with
          | Ok its => extractable_texts its
          | Raise _ => []
          end
      end
  | _ => []
  end.

Definition reply_texts (r : reply) : list json :=
  match r with
  | Reply resp =>
      match resp_json resp with
      | Some data => body_texts data
      | None => []
      end
  | NoReply => []
  end.

(** The reply lets the loop go on: a successful page with a cursor. *)
Definition goes_on (r : reply) : bool :=
  successful_page r && reply_has_cursor r.

(** The request the loop sends after the request [p] got the reply [r],
    when it goes on; [p] again otherwise. *)
Definition next_request (r : reply) (p : params) : params :=
  match r with
  | Reply resp =>
      match handle_response resp p [] with
      | Ok (Continue p' _) => p'
      | _ => p
      end
  | NoReply => p
  end.

(** The [i]-th request of the run that starts with the request [p]. *)
Fixpoint request_at (a : api) (p : params) (i : nat) : params :=
  match i with
  | O => p
  | S j => let q := request_at a p j in next_request (a j q) q
  end.

(** The reply of the API to the [i]-th request of the run that fetches
    the comments of [video_id]. *)
Definition reply_at (a : api) (video_id : str) (api_key : json)
           (max_results : Z) (i : nat) : reply :=
  a i (request_at a (page_request video_id api_key max_results None) i).

(** The payload [kv] with the format entry [f] put first. *)
Definition with_format (f : json) (kv : list (str * json)) : json :=
  JObj ((chars "format", f) :: kv).

(** ** Sample responses *)

(** An item with the display text [txt]. *)
Definition comment_item (txt : json) : json :=
  JObj [(chars "snippet",
         JObj [(chars "topLevelComment",
                JObj [(chars "snippet",
                       JObj [(chars "textDisplay", txt)])])])].

(** A page with the items [items] and, when given, the cursor. *)
Definition page_of (items : list json) (cursor : option json) : json :=
  JObj ((chars "items", JArr items) ::
        match cursor with
        | Some tok => [(chars "nextPageToken", tok)]
        | None => []
        end).

(** The items of page number [page] of pages of [n] items, each with
    its own numbered text. *)
Definition numbered_items (page n : nat) : list json :=
  map (fun i => comment_item
                  (JStr (chars "comment " ++
                         str_of_int (Z.of_nat (page * n + i)))))
      (seq 0 n).

(** The replies [replies] in order, then none. *)
Definition listed (replies : list reply) : nat -> reply :=
  fun i => nth i replies NoReply.

(** An API that answers with [replies] in order, whatever is sent, then
    stops answering. *)
Definition script (replies : list reply) : api := answering (listed replies).

(** The text of a cursor that is a string. *)
Definition token_text (cursor : option json) : option str :=
  match cursor with
  | Some (JStr s) => Some s
  | _ => None
  end.

(** The page that follows the page of [pages] whose cursor is [tok]. *)
Fixpoint page_after (tok : str) (pages : list json) : reply :=
  match pages with
  | [] => NoReply
  | data :: rest =>
      match token_text (page_cursor data), rest with
      | Some s, next :: _ =>
          if str_eqb s tok then Reply (page_response next)
          else page_after tok rest
      | _, _ => page_after tok rest
      end
  end.

(** A server that holds [pages] and picks the page by the page token of
    the request alone: the first page when there is none, the page
    after the one that carries the token otherwise. *)
Definition paged_server (pages : list json) : api :=
  fun _ p =>
    match pageToken p with
    | None =>
        match pages with
        | data :: _ => Reply (page_response data)
        | [] => NoReply
        end
    | Some (JStr tok) => page_after tok pages
    | Some _ => NoReply
    end.

Definition pages_api (pages : list json) : api :=
  script (map (fun d => Reply (page_response d)) pages).

(** Three pages of 100 items; the first two carry a cursor. *)
Definition three_pages : list json :=
  [page_of (numbered_items 0 100) (Some (JStr (chars "CAEQAA")));
   page_of (numbered_items 1 100) (Some (JStr (chars "CAIQAA")))] ++
  [page_of (numbered_items 2 100) None].

(** The payload of a failure response with a message. *)
Definition error_payload (code : Z) (message : str) : json :=
  JObj [(chars "error",
         JObj [(chars "code", JInt code);
               (chars "message", JStr message)])].

(** A page, then a failure on the second request; the third page is
    never asked for. *)
Definition quota_script : api :=
  script
    [Reply (page_response
              (page_of (numbered_items 0 2) (Some (JStr (chars "CAEQAA")))));
     Reply {| status_code := 403;
              resp_json := Some (error_payload 403 (chars "quota exceeded")) |};
     Reply (page_response (page_of (numbered_items 2 2) None))].

(** Five items of which the third has no display text. *)
Definition five_items : list json :=
  [comment_item (JStr (chars "one")); comment_item (JStr (chars "two"));
   JObj [(chars "snippet", JObj [(chars "topLevelComment", JObj [])])];
   comment_item (JStr (chars "four")); comment_item (JStr (chars "five"))].

(** An item whose ["snippet"] is null. *)
Definition null_snippet_item : json := JObj [(chars "snippet", JNull)].

Definition sample_params : params :=
  {| part := chars "snippet"; videoId := chars "dQw4w9WgXcQ";
     textFormat := chars "plainText"; key := JStr (chars "KEY");
     maxResults := 100; pageToken := None |}.

(** The doubles nearest to 0.65 and to -0.80. *)
Definition plus_065 : spec_float := S754_finite false 5854679515581645 (-53).
Definition minus_080 : spec_float := S754_finite true 7205759403792794 (-53).

(** A scorer for two known comments; every other text is neutral. *)
Definition sample_scorer (c : json) : spec_float :=
  match c with
  | JStr s =>
      if str_eqb s (chars "great video!") then plus_065
      else if str_eqb s (chars "terrible, hated it") then minus_080
      else float_zero
  | _ => float_zero
  end.

(** A scorer that never raises. *)
Definition total (scorer : json -> spec_float) : json -> result spec_float :=
  fun c => Ok (scorer c).

(** A scorer that raises on a comment that is not text. *)
Definition text_scorer (c : json) : result spec_float :=
  match c with
  | JStr _ => Ok (sample_scorer c)
  | _ => Raise TypeError
  end.

(** Writers that never raise. *)
Definition writes_all : writer -> list row -> option exn := fun _ _ => None.

(** A character that a worksheet cannot hold: a control character other
    than tab, line feed and carriage return. *)
Definition control_char (c : ascii) : bool :=
  let n := nat_of_ascii c in
  (n <? 32) && negb ((n =? 9) || (n =? 10) || (n =? 13)).

(** Writers of which the one for Excel refuses a comment with a control
    character. *)
Definition excel_refuses_control (w : writer) (df : list row) : option exn :=
  match w with
  | to_excel =>
      if existsb (fun r => match comment r with
                           | JStr s => existsb control_char s
                           | _ => false
                           end) df
      then Some (OtherError (chars "IllegalCharacterError"))
      else None
  | _ => None
  end.

Definition sample_comments : list json :=
  [JStr (chars "great video!"); JStr (chars "terrible, hated it");
   JStr (chars "first")].

(** ** Auxiliary functions of the proofs *)

(** [s] without its prefix [l]. *)
Fixpoint strip (l s : str) : option str :=
  match l, s with
  | [], _ => Some s
  | c :: l', x :: s' => if Ascii.eqb x c then strip l' s' else None
  | _ :: _, [] => None
  end.

(** The first literal of [ms], in order, that starts [s] and after
    which [K] succeeds. *)
Fixpoint first_lit (R : Type) (ms : list str) (s : str)
         (K : str -> option R) : option R :=
  match ms with
  | [] => None
  | m :: ms' =>
      match (match strip m s with Some r => K r | None => None end) with
      | Some x => Some x
      | None => first_lit ms' s K
      end
  end.

(** Group 1 of the marker pattern when 11 id characters start [r]. *)
Definition token_here (r : str) : option Re.match_object :=
  if valid_id (firstn 11 r) then Some (Some (firstn 11 r)) else None.

(** The parameters of the request that follows the page [data]. *)
Definition next_params (p : params) (data : json) : params :=
  match page_cursor data with
  | Some tok => set_pageToken p tok
  | None => p
  end.

(** The requests that fetch [pages], the first one being [p]. *)
Fixpoint requests (p : params) (pages : list json) : list params :=
  match pages with
  | [] => []
  | data :: rest => p :: requests (next_params p data) rest
  end.

(** A marker, then the token [g], start [s]. *)
Definition token_at (s g : str) : Prop :=
  exists m r, In m markers /\ s = m ++ g ++ r /\ valid_id g = true.

(** * Properties *)

(** ** The matcher on literals, classes and counts *)

Section RunFacts.
Variable R : Type.
Implicit Types (s : str) (cap : option str)
         (k : str -> option str -> option R).

Lemma run_Lit l : forall s cap k,
  Re.run (Re.Lit l) s cap k =
  match strip l s with Some s' => k s' cap | None => None end.
Proof.
  induction l as [|c l' IH]; intros s cap k; [reflexivity|].
  destruct s as [|x s']; [reflexivity|].
  cbn [Re.Lit Re.run strip]. destruct (Ascii.eqb x c); [apply IH|reflexivity].
Qed.

Lemma run_Count_S n r s cap k :
  Re.run (Re.Count (S n) r) s cap k =
  Re.run r s cap (fun s' cap' => Re.run (Re.Count n r) s' cap' k).
Proof. reflexivity. Qed.

Lemma run_Seq r1 r2 s cap k :
  Re.run (Re.Seq r1 r2) s cap k =
  Re.run r1 s cap (fun s' cap' => Re.run r2 s' cap' k).
Proof. reflexivity. Qed.

Lemma run_Group r s cap k :
  Re.run (Re.Group r) s cap k =
  Re.run r s cap
    (fun s' _ => k s' (Some (firstn (length s - length s') s))).
Proof. reflexivity. Qed.

Lemma run_Dollar s cap k :
  Re.run Re.Dollar s cap k = if Re.at_end s then k s cap else None.
Proof. reflexivity. Qed.

Lemma run_Class_cons rs x s cap k :
  Re.run (Re.Class rs) (x :: s) cap k =
  if Re.in_class rs x then k s cap else None.
Proof. reflexivity. Qed.

Lemma run_Count_Class rs n : forall s cap k,
  Re.run (Re.Count n (Re.Class rs)) s cap k =
  if (length (firstn n s) =? n) && forallb (Re.in_class rs) (firstn n s)
  then k (skipn n s) cap else None.
Proof.
  induction n as [|n IH]; intros s cap k; [reflexivity|].
  rewrite run_Count_S. destruct s as [|x s']; [reflexivity|].
  rewrite run_Class_cons. cbn [firstn skipn forallb length].
  destruct (Re.in_class rs x); [|now rewrite andb_false_r].
  rewrite IH. reflexivity.
Qed.

Lemma run_Alts_Lit ms : forall m s cap k,
  Re.run (Re.Alts (Re.Lit m) (map Re.Lit ms)) s cap k =
  first_lit (m :: ms) s (fun r => k r cap).
Proof.
  induction ms as [|m' ms IH]; intros m s cap k.
  - cbn [map Re.Alts first_lit]. rewrite run_Lit.
    destruct (strip m s) as [r|]; [destruct (k r cap)|]; reflexivity.
  - cbn [map Re.Alts Re.run]. rewrite run_Lit, IH. reflexivity.
Qed.
End RunFacts.

Lemma length_firstn_eqb (n : nat) (s : str) :
  (length (firstn n s) =? n) = (n <=? length s).
Proof.
  rewrite length_firstn.
  destruct (Nat.leb_spec n (length s)); [apply Nat.eqb_eq | apply Nat.eqb_neq]; lia.
Qed.

Lemma run_token (R : Type) (s : str) (cap : option str)
      (k : str -> option str -> option R) :
  Re.run (Re.Group (Re.Count 11 (Re.Class id_class))) s cap k =
  if valid_id (firstn 11 s) then k (skipn 11 s) (Some (firstn 11 s)) else None.
Proof.
  rewrite run_Group, run_Count_Class. unfold valid_id, is_id_char.
  destruct (length (firstn 11 s) =? 11) eqn:E; [|reflexivity].
  cbn [andb]. destruct (forallb _ _); [|reflexivity].
  rewrite length_firstn_eqb in E. apply Nat.leb_le in E.
  rewrite length_skipn. do 2 f_equal. f_equal. lia.
Qed.

Lemma match_at_marker (s : str) :
  Re.match_at marker_pattern s = first_lit markers s token_here.
Proof.
  unfold Re.match_at, marker_pattern. rewrite run_Seq.
  change [Re.Lit (chars "v/"); Re.Lit (chars "embed/");
          Re.Lit (chars "youtu.be/"); Re.Lit (chars "/v/")]
    with (map Re.Lit [chars "v/"; chars "embed/"; chars "youtu.be/";
                      chars "/v/"]).
  rewrite run_Alts_Lit. unfold markers.
  generalize [chars "v="; chars "v/"; chars "embed/"; chars "youtu.be/";
              chars "/v/"].
  intros ms. induction ms as [|m ms IH]; [reflexivity|].
  cbn [first_lit]. rewrite IH.
  destruct (strip m s) as [r|]; [|reflexivity].
  rewrite run_token. reflexivity.
Qed.

Lemma match_at_fallback (s : str) :
  Re.match_at fallback_pattern s =
  if valid_id (firstn 11 s) && Re.at_end (skipn 11 s)
  then Some (Some (firstn 11 s)) else None.
Proof.
  unfold Re.match_at, fallback_pattern. rewrite run_Seq, run_token.
  destruct (valid_id (firstn 11 s)); [|reflexivity].
  rewrite run_Dollar. cbn [andb].
  destruct (Re.at_end (skipn 11 s)); reflexivity.
Qed.

(** ** Prefixes, tokens and markers *)

Lemma strip_Some (l : str) : forall s r, strip l s = Some r <-> s = l ++ r.
Proof.
  induction l as [|c l IH]; intros s r; cbn [strip app].
  - split; congruence.
  - destruct s as [|x s]; [split; discriminate|].
    destruct (Ascii.eqb_spec x c) as [->|N].
    + rewrite IH. split; congruence.
    + split; [discriminate | congruence].
Qed.

Lemma strip_app (l r : str) : strip l (l ++ r) = Some r.
Proof. now apply strip_Some. Qed.

Lemma valid_id_length (g : str) : valid_id g = true -> length g = 11.
Proof.
  unfold valid_id. intros H. apply andb_prop in H as [H _].
  now apply Nat.eqb_eq.
Qed.

Lemma valid_id_chars (g : str) (c : ascii) :
  valid_id g = true -> In c g -> is_id_char c = true.
Proof.
  unfold valid_id. intros H. apply andb_prop in H as [_ H].
  rewrite forallb_forall in H. apply H.
Qed.

Lemma firstn_valid_app (g r : str) :
  valid_id g = true -> firstn 11 (g ++ r) = g.
Proof.
  intros H. apply valid_id_length in H.
  rewrite firstn_app, H, Nat.sub_diag, firstn_O, app_nil_r.
  rewrite <- H. apply firstn_all.
Qed.

Lemma valid_id_eq_app (g t r r' : str) :
  valid_id g = true -> valid_id t = true -> g ++ r = t ++ r' -> g = t.
Proof.
  intros Hg Ht E.
  rewrite <- (firstn_valid_app g r Hg), E. now apply firstn_valid_app.
Qed.

Lemma token_here_Some (r : str) (mo : Re.match_object) :
  token_here r = Some mo ->
  exists g r', mo = Some g /\ r = g ++ r' /\ valid_id g = true.
Proof.
  unfold token_here. destruct (valid_id (firstn 11 r)) eqn:V; [|discriminate].
  intros [= <-]. exists (firstn 11 r), (skipn 11 r).
  now rewrite firstn_skipn.
Qed.

Lemma token_here_app (g r : str) :
  valid_id g = true -> token_here (g ++ r) = Some (Some g).
Proof.
  intros V. unfold token_here. now rewrite (firstn_valid_app g r V), V.
Qed.

Lemma first_lit_token_Some (ms : list str) (s : str) (mo : Re.match_object) :
  first_lit ms s token_here = Some mo ->
  exists g m r, mo = Some g /\ In m ms /\ s = m ++ g ++ r /\ valid_id g = true.
Proof.
  induction ms as [|m ms IH]; cbn [first_lit]; [discriminate|].
  destruct (strip m s) as [r|] eqn:S.
  - destruct (token_here r) as [mo'|] eqn:T.
    + intros [= <-]. apply token_here_Some in T as (g & r' & -> & -> & V).
      apply strip_Some in S. exists g, m, r'. cbn [In]. auto.
    + intros H. destruct (IH H) as (g & m' & r' & ? & ? & ? & ?).
      exists g, m', r'. cbn [In]. auto.
  - intros H. destruct (IH H) as (g & m' & r' & ? & ? & ? & ?).
    exists g, m', r'. cbn [In]. auto.
Qed.

Lemma first_lit_token_None (ms : list str) (s : str) :
  first_lit ms s token_here = None ->
  forall m g r, In m ms -> s = m ++ g ++ r -> valid_id g = true -> False.
Proof.
  induction ms as [|m ms IH]; cbn [first_lit In]; [tauto|].
  intros H m' g r [<-|I] E V.
  - subst s. rewrite strip_app, (token_here_app g r V) in H. discriminate.
  - destruct (match strip m s with Some r0 => token_here r0 | None => None end);
      [discriminate|]. eauto.
Qed.

Lemma match_at_marker_Some (s : str) (mo : Re.match_object) :
  Re.match_at marker_pattern s = Some mo ->
  exists g, mo = Some g /\ token_at s g.
Proof.
  rewrite match_at_marker. intros H.
  apply first_lit_token_Some in H as (g & m & r & ? & ? & ? & ?).
  exists g. split; [assumption|]. now exists m, r.
Qed.

Lemma match_at_marker_None (s : str) :
  Re.match_at marker_pattern s = None -> forall g, ~ token_at s g.
Proof.
  rewrite match_at_marker. intros H g (m & r & I & E & V).
  eapply first_lit_token_None; eassumption.
Qed.

(** Every marker ends with a character outside the id class and has
    between 2 and 9 characters. *)
Lemma marker_end (m : str) :
  In m markers ->
  exists m0 c, m = m0 ++ [c] /\ is_id_char c = false /\ length m <= 9.
Proof.
  unfold markers. cbn [In]. intros [<-|[<-|[<-|[<-|[<-|[]]]]]];
    [exists (chars "v"), "="%char | exists (chars "v"), "/"%char
    | exists (chars "embed"), "/"%char | exists (chars "youtu.be"), "/"%char
    | exists (chars "/v"), "/"%char];
    (split; [reflexivity | split; [reflexivity | cbn; lia]]).
Qed.

Lemma marker_length (m : str) : In m markers -> 2 <= length m.
Proof.
  unfold markers. cbn [In].
  intros [<-|[<-|[<-|[<-|[<-|[]]]]]]; cbn; lia.
Qed.

Lemma token_at_length (s g : str) : token_at s g -> 13 <= length s.
Proof.
  intros (m & r & I & -> & V). apply valid_id_length in V.
  apply marker_length in I. rewrite !length_app, V. lia.
Qed.

(** After a string that ends outside the id class and holds no token
    of its own, the only token a marker can anchor is the one that
    follows the string. *)
Lemma token_unique (x0 : str) (c : ascii) (t rest g : str) :
  is_id_char c = false -> valid_id t = true ->
  (forall g', ~ token_at (x0 ++ [c]) g') ->
  token_at ((x0 ++ [c]) ++ t ++ rest) g -> g = t.
Proof.
  intros Hc Vt Hno (a & r & Ia & E & Vg).
  apply app_eq_app in E as [l [[E1 E2] | [E1 E2]]].
  - destruct l as [|y l'] using rev_ind.
    + cbn [app] in E2. eapply valid_id_eq_app; eassumption.
    + clear IHl'. rewrite app_assoc in E1. apply app_inj_tail in E1 as [E1 <-].
      exfalso. apply app_eq_app in E2 as [l2 [[E3 E4] | [E3 E4]]].
      * assert (In c g) as I.
        { rewrite E3. apply in_or_app. left. apply in_or_app. right. now left. }
        rewrite (valid_id_chars g c Vg I) in Hc. discriminate.
      * apply (Hno g). exists a, l2. repeat split; try assumption.
        rewrite E1, <- app_assoc. f_equal. exact E3.
  - destruct l as [|y l'] using rev_ind.
    + cbn [app] in E2. symmetry in E2. eapply valid_id_eq_app; eassumption.
    + clear IHl'. exfalso.
      destruct (marker_end Ia) as (m0 & ca & Ea & Hca & La).
      rewrite Ea, app_assoc in E1. apply app_inj_tail in E1 as [E1 ->].
      apply app_eq_app in E2 as [l2 [[E3 E4] | [E3 E4]]].
      * assert (In y t) as I.
        { rewrite E3. apply in_or_app. left. apply in_or_app. right. now left. }
        rewrite (valid_id_chars t y Vt I) in Hca. discriminate.
      * apply valid_id_length in Vt.
        assert (length (l' ++ [y]) = length (t ++ l2)) as L by now rewrite E3.
        rewrite Ea, E1 in La. rewrite !length_app in *. cbn [length] in *. lia.
Qed.

(** ** [re.search] *)

Lemma search_unfold (r : Re.regex) (s : str) :
  Re.search r s =
  match Re.match_at r s with
  | Some m => Some m
  | None => match s with [] => None | _ :: s' => Re.search r s' end
  end.
Proof. destruct s; reflexivity. Qed.

Lemma search_Some_inv (r : Re.regex) (s : str) (mo : Re.match_object) :
  Re.search r s = Some mo ->
  exists before s', s = before ++ s' /\ Re.match_at r s' = Some mo.
Proof.
  induction s as [|c s IH]; rewrite search_unfold.
  - destruct (Re.match_at r []) eqn:M; [|discriminate].
    intros [= <-]. now exists [], [].
  - destruct (Re.match_at r (c :: s)) eqn:M.
    + intros [= <-]. now exists [], (c :: s).
    + intros H. destruct (IH H) as (b & s' & -> & M').
      now exists (c :: b), s'.
Qed.

Lemma search_marker_short (s : str) :
  length s < 13 -> Re.search marker_pattern s = None.
Proof.
  induction s as [|c s IH]; intros L; rewrite search_unfold.
  - destruct (Re.match_at marker_pattern []) eqn:M; [|reflexivity].
    apply match_at_marker_Some in M as (g & _ & T).
    apply token_at_length in T. lia.
  - destruct (Re.match_at marker_pattern (c :: s)) eqn:M.
    + apply match_at_marker_Some in M as (g & _ & T).
      apply token_at_length in T. lia.
    + apply IH. cbn [length] in L. lia.
Qed.

(** The marker pattern on a marker followed by a token: it returns
    that token when nothing before it does. *)
Lemma search_marker_token (t rest m : str) :
  In m markers -> valid_id t = true ->
  forall before, marker_free (before ++ m) ->
  Re.search marker_pattern (before ++ m ++ t ++ rest) = Some (Some t).
Proof.
  intros Im Vt. destruct (marker_end Im) as (m0 & c & Em & Hc & _).
  assert (forall x, Re.match_at marker_pattern ((x ++ m) ++ t ++ rest) = None
                    \/ Re.match_at marker_pattern ((x ++ m) ++ t ++ rest)
                       = Some (Some t) \/
                    Re.match_at marker_pattern (x ++ m) <> None) as Hat.
  { intros x.
    destruct (Re.match_at marker_pattern (x ++ m)) eqn:N;
      [right; right; discriminate|].
    destruct (Re.match_at marker_pattern ((x ++ m) ++ t ++ rest)) as [mo|] eqn:M;
      [|now left].
    right; left. apply match_at_marker_Some in M as (g & -> & T).
    do 2 f_equal.
    assert (x ++ m = (x ++ m0) ++ [c]) as Ex by now rewrite Em, app_assoc.
    rewrite Ex in T, N.
    eapply token_unique; [exact Hc | exact Vt | | exact T].
    now apply match_at_marker_None. }
  induction before as [|b before IH]; intros F; unfold marker_free in F;
    rewrite search_unfold in F.
  - cbn [app] in *. specialize (Hat []). cbn [app] in Hat.
    destruct (Re.match_at marker_pattern m) eqn:N; [discriminate|].
    rewrite search_unfold.
    destruct Hat as [Hat|[Hat|Hat]]; [|now rewrite Hat|congruence].
    exfalso. apply (match_at_marker_None Hat (g := t)). now exists m, rest.
  - specialize (Hat (b :: before)).
    destruct (Re.match_at marker_pattern ((b :: before) ++ m)) eqn:N;
      [discriminate|].
    rewrite <- app_assoc in Hat. rewrite search_unfold.
    destruct Hat as [Hat|[Hat|Hat]]; [|now rewrite Hat|congruence].
    rewrite Hat. cbn [app]. apply IH. exact F.
Qed.

(** ** The last 11 characters and the fallback pattern *)

Lemma last_n_all (n : nat) (s : str) : length s <= n -> last_n n s = s.
Proof.
  intros L. unfold last_n. now replace (length s - n) with 0 by lia.
Qed.

Lemma last_n_cons (n : nat) (c : ascii) (s : str) :
  n <= length s -> last_n n (c :: s) = last_n n s.
Proof.
  intros L. unfold last_n. cbn [length].
  now replace (S (length s) - n) with (S (length s - n)) by lia.
Qed.

Lemma last_n_snoc (n : nat) (s : str) (x : ascii) :
  last_n (S n) (s ++ [x]) = last_n n s ++ [x].
Proof.
  unfold last_n. rewrite length_app. cbn [length].
  replace (length s + 1 - S n) with (length s - n) by lia.
  rewrite skipn_app.
  replace (length s - n - length s) with 0 by lia. reflexivity.
Qed.

Lemma valid_id_wrong_length (g : str) : length g <> 11 -> valid_id g = false.
Proof.
  intros L. unfold valid_id. apply Nat.eqb_neq in L. now rewrite L.
Qed.

Lemma valid_last_n_length (s : str) :
  valid_id (last_n 11 s) = true -> 11 <= length s.
Proof.
  intros V. apply valid_id_length in V. unfold last_n in V.
  rewrite length_skipn in V. lia.
Qed.

Lemma valid_last_n_tail (c : ascii) (s : str) :
  length s < 11 \/ last_n 11 (c :: s) = last_n 11 s.
Proof.
  destruct (le_lt_dec 11 (length s)) as [L|L]; [right|now left].
  now apply last_n_cons.
Qed.

(** The 11 characters before a final newline are not the last 11. *)
Lemma last_n_newline_invalid (s : str) :
  valid_id (last_n 11 (s ++ [newline])) = false.
Proof.
  rewrite last_n_snoc.
  destruct (valid_id (last_n 10 s ++ [newline])) eqn:V; [|reflexivity].
  assert (is_id_char newline = true) as I.
  { apply (valid_id_chars _ newline V). apply in_or_app. right. now left. }
  vm_compute in I. discriminate I.
Qed.

Lemma at_end_cases (r : str) :
  Re.at_end r = true -> r = [] \/ r = [newline].
Proof.
  destruct r as [|c [|c' r]]; cbn [Re.at_end]; [now left| |discriminate].
  intros H. apply Ascii.eqb_eq in H. subst c. now right.
Qed.

(** Where the fallback pattern matches: on exactly 11 id characters, or
    on 11 id characters and a newline. *)
Lemma match_at_fallback_Some (s : str) (mo : Re.match_object) :
  Re.match_at fallback_pattern s = Some mo ->
  exists g, mo = Some g /\ valid_id g = true /\ (s = g \/ s = g ++ [newline]).
Proof.
  rewrite match_at_fallback.
  destruct (valid_id (firstn 11 s)) eqn:V; [|discriminate]. cbn [andb].
  destruct (Re.at_end (skipn 11 s)) eqn:A; [|discriminate].
  intros [= <-]. exists (firstn 11 s). repeat split; [exact V|].
  apply at_end_cases in A. rewrite <- (firstn_skipn 11 s) at 1 3.
  destruct A as [->| ->]; [left; apply app_nil_r | now right].
Qed.

Lemma match_at_fallback_id (g : str) :
  valid_id g = true -> Re.match_at fallback_pattern g = Some (Some g).
Proof.
  intros V. rewrite match_at_fallback.
  pose proof (valid_id_length _ V) as L.
  rewrite firstn_all2, skipn_all2, V by lia. reflexivity.
Qed.

Lemma match_at_fallback_id_newline (g : str) :
  valid_id g = true ->
  Re.match_at fallback_pattern (g ++ [newline]) = Some (Some g).
Proof.
  intros V. rewrite match_at_fallback.
  rewrite (firstn_valid_app g [newline] V), V.
  rewrite skipn_app, skipn_all2 by (rewrite (valid_id_length _ V); lia).
  rewrite (valid_id_length _ V), Nat.sub_diag. reflexivity.
Qed.

Lemma search_fallback_last (s : str) :
  valid_id (last_n 11 s) = true ->
  Re.search fallback_pattern s = Some (Some (last_n 11 s)).
Proof.
  induction s as [|c s IH]; intros V; [discriminate V|].
  rewrite search_unfold.
  destruct (Re.match_at fallback_pattern (c :: s)) as [mo|] eqn:M.
  - apply match_at_fallback_Some in M as (g & -> & Vg & [E|E]).
    + rewrite E, last_n_all; [reflexivity|].
      rewrite (valid_id_length _ Vg). lia.
    + rewrite E, last_n_newline_invalid in V. discriminate.
  - destruct (valid_last_n_tail c s) as [L|E].
    + pose proof (valid_last_n_length _ V) as L'. cbn [length] in L'.
      rewrite last_n_all in V by (cbn [length]; lia).
      rewrite (match_at_fallback_id _ V) in M. discriminate.
    + rewrite E in *. now apply IH.
Qed.

Lemma search_fallback_before_newline (s : str) :
  valid_id (last_n 11 s) = true ->
  Re.search fallback_pattern (s ++ [newline]) = Some (Some (last_n 11 s)).
Proof.
  induction s as [|c s IH]; intros V; [discriminate V|].
  rewrite search_unfold.
  destruct (Re.match_at fallback_pattern ((c :: s) ++ [newline])) as [mo|] eqn:M.
  - apply match_at_fallback_Some in M as (g & -> & Vg & [E|E]).
    + exfalso. pose proof (last_n_newline_invalid (c :: s)) as N.
      rewrite E, last_n_all in N by (rewrite (valid_id_length _ Vg); lia).
      congruence.
    + apply app_inj_tail in E as [E _]. rewrite E, last_n_all; [reflexivity|].
      rewrite (valid_id_length _ Vg). lia.
  - destruct (valid_last_n_tail c s) as [L|E].
    + pose proof (valid_last_n_length _ V) as L'. cbn [length] in L'.
      rewrite last_n_all in V by (cbn [length]; lia).
      rewrite (match_at_fallback_id_newline _ V) in M. discriminate.
    + rewrite E in *. cbn [app]. now apply IH.
Qed.

Lemma search_fallback_none (s : str) :
  valid_id (last_n 11 s) = false ->
  (forall s0, s = s0 ++ [newline] -> valid_id (last_n 11 s0) = false) ->
  Re.search fallback_pattern s = None.
Proof.
  induction s as [|c s IH]; intros V N; rewrite search_unfold.
  - destruct (Re.match_at fallback_pattern []) as [mo|] eqn:M; [|reflexivity].
    apply match_at_fallback_Some in M as (g & -> & Vg & [E|E]).
    + now rewrite <- E in Vg.
    + now destruct g.
  - destruct (Re.match_at fallback_pattern (c :: s)) as [mo|] eqn:M.
    + exfalso. apply match_at_fallback_Some in M as (g & -> & Vg & [E|E]).
      * rewrite E, last_n_all in V by (rewrite (valid_id_length _ Vg); lia).
        congruence.
      * specialize (N g E).
        rewrite last_n_all in N by (rewrite (valid_id_length _ Vg); lia).
        congruence.
    + apply IH.
      * destruct (valid_last_n_tail c s) as [L|E]; [|now rewrite <- E].
        apply valid_id_wrong_length. rewrite last_n_all; lia.
      * intros s0 E0.
        destruct (valid_last_n_tail c s0) as [L|E].
        -- apply valid_id_wrong_length. rewrite last_n_all; lia.
        -- rewrite <- E. apply N. now rewrite E0.
Qed.

(** ** extract_video_id *)

Lemma extract_unfold (url : str) :
  url <> [] ->
  extract_video_id url =
  match Re.search marker_pattern url with
  | Some m => m
  | None =>
      match Re.search fallback_pattern url with
      | Some m => m
      | None => None
      end
  end.
Proof. destruct url; [congruence | reflexivity]. Qed.

Lemma valid_id_nonempty (t : str) : valid_id t = true -> t <> [].
Proof. now destruct t. Qed.

Lemma extract_bare_id (t : str) :
  valid_id t = true -> extract_video_id t = Some t.
Proof.
  intros V. rewrite extract_unfold by now apply valid_id_nonempty.
  rewrite search_marker_short by (rewrite (valid_id_length _ V); lia).
  rewrite search_fallback_last; rewrite last_n_all;
    try (rewrite (valid_id_length _ V); lia); auto.
Qed.

Lemma extract_valid (u v : str) :
  extract_video_id u = Some v -> valid_id v = true.
Proof.
  destruct u as [|c u]; [discriminate|].
  rewrite extract_unfold by discriminate.
  destruct (Re.search marker_pattern (c :: u)) as [mo|] eqn:S1.
  - intros ->. apply search_Some_inv in S1 as (b & s' & _ & M).
    apply match_at_marker_Some in M as (g & [= <-] & (m & r & _ & _ & V)).
    exact V.
  - destruct (Re.search fallback_pattern (c :: u)) as [mo|] eqn:S2;
      [|discriminate].
    intros ->. apply search_Some_inv in S2 as (b & s' & _ & M).
    apply match_at_fallback_Some in M as (g & [= <-] & V & _). exact V.
Qed.

Example extract_watch :
  extract_video_id (chars "https://www.youtube.com/watch?v=dQw4w9WgXcQ&t=42s")
  = Some (chars "dQw4w9WgXcQ").
Proof. reflexivity. Qed.

Example extract_short :
  extract_video_id (chars "https://youtu.be/dQw4w9WgXcQ")
  = Some (chars "dQw4w9WgXcQ").
Proof. reflexivity. Qed.

Example extract_embed :
  extract_video_id (chars "https://www.youtube.com/embed/dQw4w9WgXcQ?rel=0")
  = Some (chars "dQw4w9WgXcQ").
Proof. reflexivity. Qed.

Example extract_v :
  extract_video_id (chars "https://www.youtube.com/v/dQw4w9WgXcQ")
  = Some (chars "dQw4w9WgXcQ").
Proof. reflexivity. Qed.

Example extract_bare :
  extract_video_id (chars "dQw4w9WgXcQ") = Some (chars "dQw4w9WgXcQ").
Proof. reflexivity. Qed.

Example extract_empty : extract_video_id [] = None.
Proof. reflexivity. Qed.

Example extract_short_string : extract_video_id (chars "abc") = None.
Proof. reflexivity. Qed.

Example extract_not_id_chars : extract_video_id (chars "hello world!") = None.
Proof. reflexivity. Qed.

Example extract_before_newline :
  extract_video_id (chars "dQw4w9WgXcQ" ++ ["010"%char])
  = Some (chars "dQw4w9WgXcQ").
Proof. reflexivity. Qed.

Lemma extract_marker_url (t before m rest : str) :
  valid_id t = true -> In m markers -> marker_free (before ++ m) ->
  extract_video_id (before ++ m ++ t ++ rest) = Some t.
Proof.
  intros V Im F. rewrite extract_unfold.
  - now rewrite search_marker_token.
  - apply marker_length in Im. intros E.
    apply (f_equal (@List.length ascii)) in E.
    rewrite !length_app in E. cbn [length] in E. lia.
Qed.

(** C7. For every 11-character token [t] over [[A-Za-z0-9_-]] and every
    supported URL shape that carries it - the bare id, or a URL in which
    [v=], [v/], [embed/], [youtu.be/] or [/v/] is followed by [t], as in
    the [watch?v=], [youtu.be/], [/embed/] and [/v/] URLs -
    [extract_video_id] returns [t] itself. *)
Theorem extract_supported_shapes (t u : str) :
  valid_id t = true -> url_shape t u -> extract_video_id u = Some t.
Proof.
  intros V [|before m rest Im F].
  - now apply extract_bare_id.
  - now apply extract_marker_url.
Qed.

Lemma extract_supported_shapes_witness :
  valid_id (chars "dQw4w9WgXcQ") = true /\
  extract_video_id
    (chars "https://www.youtube.com/watch?" ++ chars "v=" ++
     chars "dQw4w9WgXcQ" ++ chars "&t=42s")
  = Some (chars "dQw4w9WgXcQ").
Proof.
  split; [reflexivity|].
  apply extract_supported_shapes; [reflexivity|].
  apply shape_marker; [now left | reflexivity].
Defined.

(** The usual prefixes of the four URL shapes hold no token of their
    own, so that every URL made of one of them, a token and any rest is
    a supported shape. *)
Lemma usual_prefixes_marker_free :
  marker_free (chars "https://www.youtube.com/watch?" ++ chars "v=") /\
  marker_free (chars "https://" ++ chars "youtu.be/") /\
  marker_free (chars "https://www.youtube.com/" ++ chars "embed/") /\
  marker_free (chars "https://www.youtube.com" ++ chars "/v/").
Proof. repeat split; vm_compute; reflexivity. Qed.

Lemma extract_usual_urls (t rest : str) :
  valid_id t = true ->
  extract_video_id (chars "https://www.youtube.com/watch?v=" ++ t ++ rest)
  = Some t /\
  extract_video_id (chars "https://youtu.be/" ++ t ++ rest) = Some t /\
  extract_video_id (chars "https://www.youtube.com/embed/" ++ t ++ rest)
  = Some t /\
  extract_video_id (chars "https://www.youtube.com/v/" ++ t ++ rest) = Some t.
Proof.
  intros V. destruct usual_prefixes_marker_free as (F1 & F2 & F3 & F4).
  repeat split.
  - apply (@extract_marker_url t (chars "https://www.youtube.com/watch?")
             (chars "v=") rest V); [now left | exact F1].
  - apply (@extract_marker_url t (chars "https://") (chars "youtu.be/")
             rest V); [cbn; tauto | exact F2].
  - apply (@extract_marker_url t (chars "https://www.youtube.com/")
             (chars "embed/") rest V); [cbn; tauto | exact F3].
  - apply (@extract_marker_url t (chars "https://www.youtube.com")
             (chars "/v/") rest V); [cbn; tauto | exact F4].
Qed.

(** An earlier marker followed by 11 id characters wins: such a URL is
    outside the supported shapes. *)
Example extract_earlier_marker :
  extract_video_id
    (chars "https://www.youtube.com/watch?dev=abcdefghijklmnop&v=dQw4w9WgXcQ")
  = Some (chars "abcdefghijk").
Proof. reflexivity. Qed.

(** C8, as the code has it. For every non-empty input on which the
    marker pattern finds nothing: when the last 11 characters are all in
    [[A-Za-z0-9_-]], [extract_video_id] returns them; when the input ends
    with a newline and the 11 characters before it are all in the class,
    it returns those; in every other case (fewer than 11 characters, or
    a character outside the class among them) it returns [None]. *)
Theorem extract_fallback (url : str) :
  url <> [] -> marker_free url ->
  (valid_id (last_n 11 url) = true ->
   extract_video_id url = Some (last_n 11 url)) /\
  (forall s0, url = s0 ++ [newline] -> valid_id (last_n 11 s0) = true ->
   extract_video_id url = Some (last_n 11 s0)) /\
  (valid_id (last_n 11 url) = false ->
   (forall s0, url = s0 ++ [newline] -> valid_id (last_n 11 s0) = false) ->
   extract_video_id url = None).
Proof.
  intros N F. rewrite (extract_unfold N). unfold marker_free in F. rewrite F.
  repeat split.
  - intros V. now rewrite search_fallback_last.
  - intros s0 -> V. now rewrite search_fallback_before_newline.
  - intros V Hn. now rewrite search_fallback_none.
Qed.

Lemma extract_fallback_witness :
  extract_video_id (chars "see dQw4w9WgXcQ") = Some (chars "dQw4w9WgXcQ") /\
  extract_video_id (chars "dQw4w9WgXcQ" ++ [newline])
  = Some (chars "dQw4w9WgXcQ") /\
  extract_video_id (chars "hello world!") = None.
Proof.
  split; [|split].
  - destruct (@extract_fallback (chars "see dQw4w9WgXcQ")) as (H & _ & _);
      [discriminate | reflexivity | apply H; reflexivity].
  - destruct (@extract_fallback (chars "dQw4w9WgXcQ" ++ [newline]))
      as (_ & H & _);
      [discriminate | reflexivity
      | apply (H (chars "dQw4w9WgXcQ")); reflexivity].
  - destruct (@extract_fallback (chars "hello world!")) as (_ & _ & H);
      [discriminate | reflexivity | apply H; [reflexivity|]].
    intros s0 E.
    change (chars "hello world!") with (chars "hello world" ++ ["!"%char]) in E.
    apply app_inj_tail in E as [_ E]. discriminate E.
Defined.

(** C8 as stated fails: on a non-empty input without a marker match
    whose last 11 characters are not all id characters, nothing is
    returned. *)
Lemma fallback_not_last_11 :
  let url := chars "hello world!" in
  url <> [] /\ marker_free url /\
  extract_video_id url <> Some (last_n 11 url).
Proof. repeat split; [discriminate | discriminate]. Qed.

(** C10. [extract_video_id] returns every valid id unchanged, and is
    idempotent on its results: an id it has extracted from any input is
    extracted from itself. *)
Theorem extract_idempotent :
  (forall s, valid_id s = true -> extract_video_id s = Some s) /\
  (forall u v, extract_video_id u = Some v -> extract_video_id v = Some v).
Proof.
  split.
  - exact extract_bare_id.
  - intros u v E. apply extract_bare_id. exact (extract_valid u E).
Qed.

Lemma extract_idempotent_witness :
  extract_video_id (chars "a-b_c0d1E2F") = Some (chars "a-b_c0d1E2F") /\
  extract_video_id (chars "dQw4w9WgXcQ") = Some (chars "dQw4w9WgXcQ").
Proof.
  split.
  - apply (proj1 extract_idempotent). reflexivity.
  - apply (proj2 extract_idempotent
                 (chars "https://www.youtube.com/embed/dQw4w9WgXcQ?rel=0")).
    reflexivity.
Defined.

(** ** Items and pages *)

(** What the chain of four subscripts does on an item: the text, a
    [KeyError] when a field is absent, a [TypeError] when a value on
    the way is not an object. *)
Lemma text_display_cases (it : json) :
  match text_display it with
  | Ok txt => item_object it = true /\ item_text it = Some txt
  | Raise (KeyError _) => item_object it = true /\ item_text it = None
  | Raise TypeError => item_object it = false
  | Raise _ => False
  end.
Proof.
  unfold text_display, item_object, item_text, text_path.
  cbn [objects_along].
  destruct it as [| | | | | |kv]; try reflexivity.
  cbn [py_getitem bind field].
  destruct (assoc (chars "snippet") kv) as [a|]; [|now split].
  destruct a as [| | | | | |kva]; try reflexivity.
  cbn [py_getitem bind field].
  destruct (assoc (chars "topLevelComment") kva) as [b|]; [|now split].
  destruct b as [| | | | | |kvb]; try reflexivity.
  cbn [py_getitem bind field].
  destruct (assoc (chars "snippet") kvb) as [c|]; [|now split].
  destruct c as [| | | | | |kvc]; try reflexivity.
  cbn [py_getitem bind field].
  destruct (assoc (chars "textDisplay") kvc) as [d|]; now split.
Qed.

Lemma collect_spec (items : list json) : forall acc,
  collect items acc =
  if forallb item_object items
  then Ok (acc ++ extractable_texts items) else Raise TypeError.
Proof.
  induction items as [|it items IH]; intros acc; cbn [collect forallb].
  - cbn. now rewrite app_nil_r.
  - pose proof (text_display_cases it) as C.
    unfold extractable_texts in *. cbn [flat_map].
    destruct (text_display it) as [txt|[]]; try contradiction.
    + destruct C as [-> ->]. cbn [andb]. rewrite IH.
      destruct (forallb item_object items); [|reflexivity].
      now rewrite <- app_assoc.
    + destruct C as [-> ->]. cbn [andb app]. apply IH.
    + now rewrite C.
Qed.

(** The body of the loop on a successful response that carries an
    object. *)
Lemma handle_object (resp : response) (kv : list (str * json))
      (p : params) (acc : list json) :
  status_code resp = 200%Z -> resp_json resp = Some (JObj kv) ->
  handle_response resp p acc =
  ( its <- py_iter (match assoc (chars "items") kv with
                    | Some v => v
                    | None => JArr []
                    end) ;;
    comments' <- collect its acc ;;
    match assoc (chars "nextPageToken") kv with
    | Some tok =>
        if py_truthy tok then Ok (Continue (set_pageToken p tok) comments')
        else Ok (Break comments')
    | None => Ok (Break comments')
    end ).
Proof.
  intros S J. unfold handle_response. rewrite J, S. cbn [Z.eqb Pos.eqb negb].
  cbn [py_get bind].
  destruct (assoc (chars "items") kv) as [v|]; cbn [bind];
    (destruct (py_iter _) as [its|e]; [|reflexivity]); cbn [bind];
    (destruct (collect its acc) as [cs|e]; [|reflexivity]); cbn [bind];
    (destruct (assoc (chars "nextPageToken") kv) as [tok|]; cbn [bind];
     [destruct (py_truthy tok)|]; reflexivity).
Qed.

Lemma handle_page (data : json) (p : params) (acc : list json) :
  api_page data = true ->
  handle_response (page_response data) p acc =
  Ok (match page_cursor data with
      | Some tok =>
          if py_truthy tok
          then Continue (set_pageToken p tok) (acc ++ page_texts data)
          else Break (acc ++ page_texts data)
      | None => Break (acc ++ page_texts data)
      end).
Proof.
  unfold api_page, page_texts, page_cursor, page_items.
  destruct data as [| | | | | |kv]; try discriminate.
  intros A. rewrite (@handle_object _ kv) by reflexivity. cbn [field].
  destruct (assoc (chars "items") kv) as [[| | | | |l|]|]; try discriminate;
    cbn [py_iter bind]; rewrite collect_spec, ?A; cbn [bind forallb];
    destruct (assoc (chars "nextPageToken") kv) as [tok|];
    try destruct (py_truthy tok); reflexivity.
Qed.

(** ** The pagination loop *)

Lemma fetch_loop_S (fuel : nat) (a : api) (log : list params) (p : params)
      (acc : list json) :
  fetch_loop (S fuel) a log p acc =
  match a (length log) p with
  | NoReply => (Some (Raise RequestException), log ++ [p])
  | Reply resp =>
      match handle_response resp p acc with
      | Raise e => (Some (Raise e), log ++ [p])
      | Ok (Break comments') => (Some (Ok comments'), log ++ [p])
      | Ok (Continue p' comments') =>
          fetch_loop fuel a (log ++ [p]) p' comments'
      end
  end.
Proof.
  cbn [fetch_loop]. unfold session_get.
  destruct (a (length log) p); reflexivity.
Qed.

(** The same turn when the API answers whatever is sent. *)
Lemma fetch_loop_answering (fuel : nat) (r : nat -> reply)
      (log : list params) (p : params) (acc : list json) :
  fetch_loop (S fuel) (answering r) log p acc =
  match r (length log) with
  | NoReply => (Some (Raise RequestException), log ++ [p])
  | Reply resp =>
      match handle_response resp p acc with
      | Raise e => (Some (Raise e), log ++ [p])
      | Ok (Break comments') => (Some (Ok comments'), log ++ [p])
      | Ok (Continue p' comments') =>
          fetch_loop fuel (answering r) (log ++ [p]) p' comments'
      end
  end.
Proof. apply fetch_loop_S. Qed.

Lemma fetch_all_comments_eq (fuel : nat) (a : api) (log : list params)
      (video_id : str) (api_key : json) (max_results : Z) :
  fetch_all_comments fuel a log video_id api_key max_results =
  fetch_loop fuel a log (page_request video_id api_key max_results None) [].
Proof. reflexivity. Qed.

Section Pages.
Variables (a : api) (video_id : str) (api_key : json) (max_results : Z).

Let request := page_request video_id api_key max_results.
Let serving (n : nat) := serves_from a n video_id api_key max_results.

Lemma cursor_before_cons (first : option json) (data : json)
      (pages : list json) (i : nat) :
  cursor_before first (data :: pages) (S i) =
  cursor_before (page_cursor data) pages i.
Proof. destruct i; reflexivity. Qed.

Lemma cursor_before_app (first : option json) (pages more : list json)
      (i : nat) :
  i <= length pages ->
  cursor_before first (pages ++ more) i = cursor_before first pages i.
Proof.
  destruct i as [|i]; [reflexivity|]. intros L. cbn [cursor_before].
  now rewrite nth_error_app1 by lia.
Qed.

Lemma serves_from_cons (n : nat) (first : option json) (data : json)
      (pages : list json) :
  serving n first (data :: pages) ->
  a n (request first) = Reply (page_response data) /\
  serving (S n) (page_cursor data) pages.
Proof.
  intros H. split.
  - rewrite <- (Nat.add_0_r n). now apply (H 0).
  - intros i d E. rewrite Nat.add_succ_comm, <- (cursor_before_cons first).
    now apply H.
Qed.

Lemma serves_from_app (n : nat) (first : option json)
      (pages more : list json) :
  serving n first (pages ++ more) -> serving n first pages.
Proof.
  intros H i d E.
  assert (i < length pages) as L by (apply nth_error_Some; congruence).
  rewrite <- (@cursor_before_app first pages more) by lia.
  apply H. now rewrite nth_error_app1.
Qed.

Lemma has_cursor_true (data : json) :
  has_cursor data = true ->
  exists tok, page_cursor data = Some tok /\ py_truthy tok = true.
Proof.
  unfold has_cursor. destruct (page_cursor data) as [tok|]; [|discriminate].
  intros T. now exists tok.
Qed.

Lemma requests_length (pages : list json) : forall p,
  length (requests p pages) = length pages.
Proof.
  induction pages as [|d pages IH]; intros p; [reflexivity|].
  cbn [requests length]. now rewrite IH.
Qed.

Lemma requests_app (pages more : list json) : forall p,
  requests p (pages ++ more) =
  requests p pages ++ requests (fold_left next_params pages p) more.
Proof.
  induction pages as [|d pages IH]; intros p; [reflexivity|].
  cbn [app requests fold_left]. now rewrite IH.
Qed.

(** The request that follows a page with a cursor is the request for
    the page after it: the same one, with the cursor as its token. *)
Lemma next_params_request (first : option json) (data tok : json) :
  page_cursor data = Some tok ->
  next_params (request first) data = request (Some tok).
Proof. intros T. unfold next_params. rewrite T. reflexivity. Qed.

Lemma fold_next_params (pages : list json) : forall first,
  Forall (fun d => has_cursor d = true) pages ->
  fold_left next_params pages (request first) =
  request (cursor_before first pages (length pages)).
Proof.
  induction pages as [|data pages IH]; intros first C; [reflexivity|].
  inversion_clear C as [|? ? C1 C2].
  apply has_cursor_true in C1 as (tok & T1 & _).
  cbn [fold_left length].
  rewrite (@next_params_request first _ _ T1), IH by exact C2.
  now rewrite cursor_before_cons, T1.
Qed.

(** The loop walks through pages that carry a cursor: after as many
    turns as there are pages it has sent one request for each, holds
    their texts, in order, and is about to ask for the page after the
    last of them. *)
Lemma fetch_loop_prefix (pages : list json) :
  forall (log : list params) (first : option json) (acc : list json),
  Forall (fun d => api_page d = true) pages ->
  Forall (fun d => has_cursor d = true) pages ->
  serving (length log) first pages ->
  forall fuel,
    fetch_loop (length pages + fuel) a log (request first) acc =
    fetch_loop fuel a (log ++ requests (request first) pages)
      (request (cursor_before first pages (length pages)))
      (acc ++ flat_map page_texts pages).
Proof.
  induction pages as [|data pages IH]; intros log first acc A C Hs fuel.
  - cbn [length flat_map Nat.add requests cursor_before].
    now rewrite !app_nil_r.
  - inversion_clear A as [|? ? A1 A2]. inversion_clear C as [|? ? C1 C2].
    apply serves_from_cons in Hs as [S1 S2].
    apply has_cursor_true in C1 as (tok & T1 & T2).
    cbn [length Nat.add requests flat_map].
    rewrite fetch_loop_S, S1, handle_page by exact A1. rewrite T1, T2.
    rewrite (@next_params_request first _ _ T1), cursor_before_cons, T1.
    change (set_pageToken (request first) tok) with (request (Some tok)).
    rewrite IH; [now rewrite <- !app_assoc | exact A2 | exact C2 |].
    rewrite length_app. cbn [length]. rewrite Nat.add_1_r.
    now rewrite <- T1.
Qed.

(** The whole run on pages of which only the last carries no cursor. *)
Lemma fetch_loop_pages (pages : list json) (last : json)
      (log : list params) (first : option json) (acc : list json)
      (fuel : nat) :
  Forall (fun d => api_page d = true) (pages ++ [last]) ->
  Forall (fun d => has_cursor d = true) pages ->
  has_cursor last = false ->
  serving (length log) first (pages ++ [last]) ->
  length pages < fuel ->
  fetch_loop fuel a log (request first) acc =
  (Some (Ok (acc ++ flat_map page_texts (pages ++ [last]))),
   log ++ requests (request first) (pages ++ [last])).
Proof.
  intros A C N Hs F. apply Forall_app in A as [A1 A2].
  inversion_clear A2 as [|? ? A3 _].
  replace fuel with (length pages + S (fuel - S (length pages))) by lia.
  rewrite fetch_loop_prefix;
    [|exact A1|exact C|eapply serves_from_app; exact Hs].
  rewrite fetch_loop_S.
  assert (a (length (log ++ requests (request first) pages))
            (request (cursor_before first pages (length pages))) =
          Reply (page_response last)) as R.
  { rewrite length_app, requests_length.
    rewrite <- (@cursor_before_app first pages [last]) by lia.
    apply Hs. rewrite nth_error_app2, Nat.sub_diag by lia. reflexivity. }
  rewrite R, handle_page by exact A3.
  unfold has_cursor in N. rewrite flat_map_app, requests_app.
  rewrite fold_next_params by exact C.
  cbn [flat_map requests]. rewrite app_nil_r, !app_assoc.
  destruct (page_cursor last) as [tok|]; [rewrite N|]; reflexivity.
Qed.

End Pages.

Lemma serves_pages_api (pages : list json) (video_id : str) (api_key : json)
      (max_results : Z) :
  serves (pages_api pages) video_id api_key max_results pages.
Proof.
  intros i d H. unfold pages_api, script, answering, listed. cbn [Nat.add].
  apply (map_nth_error (fun d => Reply (page_response d))) in H.
  now apply nth_error_nth.
Qed.

(** C1, as the code has it. For every finite sequence of API pages
    (successful responses that carry a JSON object whose items are
    objects down the path to the display text) in which each page but
    the last carries a cursor with a true truth value and the last
    carries none, or one that is null, false, zero or empty, and for
    every API that answers the request without a page token with the
    first page and the request with the cursor of a page with the page
    after it, [fetch_all_comments] returns, after one request per page,
    the extractable comment texts of all pages, in page order and within
    a page in item order. *)
Theorem fetch_all_pages (a : api) (pages : list json) (last : json)
        (video_id : str) (api_key : json) (max_results : Z) (fuel : nat) :
  Forall (fun d => api_page d = true) (pages ++ [last]) ->
  Forall (fun d => has_cursor d = true) pages ->
  has_cursor last = false ->
  serves a video_id api_key max_results (pages ++ [last]) ->
  length pages < fuel ->
  exists log,
    fetch_all_comments fuel a [] video_id api_key max_results =
    (Some (Ok (flat_map page_texts (pages ++ [last]))), log) /\
    length log = S (length pages).
Proof.
  intros A C N Hs F. rewrite fetch_all_comments_eq.
  rewrite (@fetch_loop_pages a video_id api_key max_results pages last)
    by assumption.
  eexists. split; [reflexivity|].
  cbn [app]. rewrite requests_length, length_app. cbn [length]. lia.
Qed.

Lemma fetch_all_pages_witness :
  length (flat_map page_texts three_pages) = 300 /\
  exists log,
    fetch_all_comments 3 (paged_server three_pages) []
      (chars "dQw4w9WgXcQ") (JStr (chars "KEY")) 100 =
    (Some (Ok (flat_map page_texts three_pages)), log) /\
    length log = 3.
Proof.
  split; [vm_compute; reflexivity|].
  unfold three_pages. apply fetch_all_pages.
  - repeat (apply Forall_cons; [vm_compute; reflexivity|]). apply Forall_nil.
  - repeat (apply Forall_cons; [vm_compute; reflexivity|]). apply Forall_nil.
  - vm_compute; reflexivity.
  - intros [|[|[|[|i]]]] d H; cbn in H; try discriminate H;
      injection H as <-; reflexivity.
  - cbn [length]. lia.
Defined.

(** C1 as stated fails. A first page whose cursor field is present but
    empty is the last one fetched, although the page after it is there
    to be had; and a page with an item whose text cannot be extracted
    because a value on the way is not an object makes the fetch fail. *)
Lemma cursor_field_not_enough :
  let page1 := page_of [comment_item (JStr (chars "one"))] (Some (JStr [])) in
  let page2 := page_of [comment_item (JStr (chars "two"))] None in
  let page := page_of [comment_item (JStr (chars "one")); null_snippet_item]
                      None in
  (page_cursor page1 = Some (JStr []) /\ page_cursor page2 = None /\
   flat_map page_texts [page1; page2] =
   [JStr (chars "one"); JStr (chars "two")] /\
   fetch_all_comments 5 (paged_server [page1; page2]) []
     (chars "dQw4w9WgXcQ") (JStr (chars "KEY")) 100 =
   (Some (Ok [JStr (chars "one")]), [sample_params])) /\
  (page_cursor page = None /\
   flat_map page_texts [page] = [JStr (chars "one")] /\
   fetch_all_comments 5 (paged_server [page]) []
     (chars "dQw4w9WgXcQ") (JStr (chars "KEY")) 100 =
   (Some (Raise TypeError), [sample_params])).
Proof. repeat split. Qed.

(** ** Failure responses *)


(** How the message of a failure reads when the payload gives a string. *)
Lemma render_api_error (s : str) :
  render (api_error_message (JStr s)) = Some (chars "YouTube API error: " ++ s).
Proof.
  unfold api_error_message. cbn [render py_str option_map].
  now rewrite app_nil_r.
Qed.

Example http_status_message_403 :
  http_status_message 403 = JStr (chars "HTTP 403").
Proof. reflexivity. Qed.




Example api_error_without_message :
  fst (fetch_all_comments 3
         (script [Reply {| status_code := 500;
                           resp_json := Some (JObj []) |}]) []
         (chars "dQw4w9WgXcQ") (JStr (chars "KEY")) 100) =
  Some (Raise (RuntimeError [Text (chars "YouTube API error: ");
                             Value (JStr (chars "HTTP 500"))])).
Proof. reflexivity. Qed.

(** A failure response whose body is not JSON is reported as such,
    whatever its status. *)
Example failure_without_json :
  fst (fetch_all_comments 3
         (script [Reply {| status_code := 502; resp_json := None |}]) []
         (chars "dQw4w9WgXcQ") (JStr (chars "KEY")) 100) =
  Some (Raise (RuntimeError invalid_json_message)).
Proof. reflexivity. Qed.

(** ** Items without the display text *)

(** C4, as the code has it. On every successful page whose items are
    objects down the path to the display text, an item in which a
    field of the path is absent is skipped and the others are still
    processed: the page is handled without an error and adds exactly
    the texts of its items that have one, in item order. *)
Theorem missing_field_skipped (resp : response) (data : json)
        (items : list json) (p : params) (acc : list json) :
  status_code resp = 200%Z -> resp_json resp = Some data ->
  page_items data = Some items ->
  Forall (fun it => item_object it = true) items ->
  exists t, handle_response resp p acc = Ok t /\
            turn_comments t = acc ++ extractable_texts items.
Proof.
  intros S J I O. destruct resp as [status j]. cbn in S, J. subst status j.
  assert (api_page data = true) as A.
  { unfold api_page. rewrite I. now apply forallb_forall, Forall_forall. }
  change {| status_code := 200; resp_json := Some data |}
    with (page_response data).
  rewrite handle_page by exact A. unfold page_texts. rewrite I.
  eexists. split; [reflexivity|].
  destruct (page_cursor data) as [tok|]; [destruct (py_truthy tok)|];
    reflexivity.
Qed.

Lemma missing_field_skipped_witness :
  length (extractable_texts five_items) = 4 /\
  exists t,
    handle_response (page_response (page_of five_items None))
      sample_params [] = Ok t /\
    turn_comments t = [] ++ extractable_texts five_items.
Proof.
  split; [reflexivity|].
  apply (@missing_field_skipped _ (page_of five_items None));
    [reflexivity | reflexivity | reflexivity |].
  repeat (apply Forall_cons; [reflexivity|]). apply Forall_nil.
Defined.

(** C4 as stated fails: an item whose text cannot be extracted because
    a value on the way is not an object is not skipped; the error
    leaves the page and the fetch. *)
Lemma item_defect_escalates :
  let page := page_of [comment_item (JStr (chars "one")); null_snippet_item;
                       comment_item (JStr (chars "three"))] None in
  item_text null_snippet_item = None /\
  handle_response (page_response page) sample_params [] = Raise TypeError /\
  fst (fetch_all_comments 3 (pages_api [page]) []
         (chars "dQw4w9WgXcQ") (JStr (chars "KEY")) 100) =
  Some (Raise TypeError).
Proof. repeat split. Qed.

(** ** When the loop ends *)

(** The three ways in which the body of the loop ends, read off the
    reply. *)
Lemma handle_response_spec (resp : response) (p : params) (acc : list json) :
  match handle_response resp p acc with
  | Ok (Continue _ _) =>
      successful_page (Reply resp) = true /\
      reply_has_cursor (Reply resp) = true
  | Ok (Break _) =>
      successful_page (Reply resp) = true /\
      reply_has_cursor (Reply resp) = false
  | Raise _ => successful_page (Reply resp) = false
  end.
Proof.
  destruct resp as [status [data|]]; unfold successful_page, reply_has_cursor;
    cbn [status_code resp_json]; [|now rewrite andb_false_r].
  destruct (status =? 200)%Z eqn:S.
  - apply Z.eqb_eq in S. subst status.
    destruct data as [| | | | | |kv]; try reflexivity.
    rewrite (@handle_object _ kv) by reflexivity.
    unfold has_cursor, page_cursor. cbn [field andb].
    destruct (assoc (chars "items") kv) as [v|].
    + destruct (py_iter v) as [its|e]; [|reflexivity]. cbn [bind].
      rewrite collect_spec.
      destruct (forallb item_object its); [|reflexivity]. cbn [bind].
      destruct (assoc (chars "nextPageToken") kv) as [tok|];
        [destruct (py_truthy tok)|]; now split.
    + cbn [py_iter bind collect].
      destruct (assoc (chars "nextPageToken") kv) as [tok|];
        [destruct (py_truthy tok)|]; now split.
  - unfold handle_response. cbn [status_code resp_json]. rewrite S.
    cbn [negb]. destruct (py_get data (chars "error") (JObj [])) as [err|e];
      [|reflexivity].
    cbn [bind]. destruct (py_get err _ _); reflexivity.
Qed.

(** What is collected so far has no part in how a turn ends. *)
Lemma handle_response_acc (resp : response) (p : params) (acc : list json) :
  handle_response resp p acc =
  match handle_response resp p [] with
  | Ok (Break cs) => Ok (Break (acc ++ cs))
  | Ok (Continue p' cs) => Ok (Continue p' (acc ++ cs))
  | Raise e => Raise e
  end.
Proof.
  destruct resp as [status [data|]]; [|reflexivity].
  destruct (status =? 200)%Z eqn:E.
  - apply Z.eqb_eq in E. subst status.
    destruct data as [| | | | | |kv]; try reflexivity.
    rewrite !(@handle_object _ kv) by reflexivity.
    destruct (py_iter _) as [its|e]; [|reflexivity]. cbn [bind].
    rewrite !collect_spec.
    destruct (forallb item_object its); [|reflexivity]. cbn [bind app].
    destruct (assoc (chars "nextPageToken") kv) as [tok|];
      [destruct (py_truthy tok)|]; reflexivity.
  - unfold handle_response. cbn [status_code resp_json]. rewrite E.
    cbn [negb]. destruct (py_get data (chars "error") (JObj [])) as [err|e];
      [|reflexivity].
    cbn [bind]. destruct (py_get err _ _); reflexivity.
Qed.

(** A run meets the API through the replies to the requests it sends:
    it is the run against the API that gives these replies whatever is
    sent. *)
Lemma fetch_loop_replies (a : api) (p0 : params) (fuel : nat) :
  forall (log : list params) (acc : list json),
  fetch_loop fuel a log (request_at a p0 (length log)) acc =
  fetch_loop fuel (answering (fun i => a i (request_at a p0 i))) log
    (request_at a p0 (length log)) acc.
Proof.
  induction fuel as [|fuel IH]; intros log acc; [reflexivity|].
  rewrite fetch_loop_S, fetch_loop_answering.
  set (p := request_at a p0 (length log)).
  destruct (a (length log) p) as [resp|] eqn:R; [|reflexivity].
  rewrite (handle_response_acc resp p acc).
  assert (request_at a p0 (length (log ++ [p])) =
          next_request (Reply resp) p) as N.
  { rewrite length_app, Nat.add_1_r. cbn [request_at]. fold p.
    now rewrite R. }
  cbn [next_request] in N.
  destruct (handle_response resp p []) as [[cs|p' cs]|e]; try reflexivity.
  rewrite <- N. apply IH.
Qed.

(** Against an API that answers whatever is sent, these are its
    replies. *)
Lemma reply_at_answering (r : nat -> reply) (video_id : str)
      (api_key : json) (max_results : Z) (i : nat) :
  reply_at (answering r) video_id api_key max_results i = r i.
Proof. reflexivity. Qed.

Lemma fetch_all_comments_replies (a : api) (video_id : str) (api_key : json)
      (max_results : Z) (fuel : nat) :
  fetch_all_comments fuel a [] video_id api_key max_results =
  fetch_all_comments fuel
    (answering (reply_at a video_id api_key max_results)) []
    video_id api_key max_results.
Proof.
  rewrite !fetch_all_comments_eq.
  apply (@fetch_loop_replies a
           (page_request video_id api_key max_results None) fuel [] []).
Qed.

Lemma fetch_loop_returns_inv (a : nat -> reply) (fuel : nat) :
  forall (log : list params) (p : params) (acc cs : list json)
         (log' : list params),
  fetch_loop fuel (answering a) log p acc = (Some (Ok cs), log') ->
  exists k,
    k < fuel /\ length log' = length log + S k /\
    (forall i, i < k ->
               successful_page (a (length log + i)) = true /\
               reply_has_cursor (a (length log + i)) = true) /\
    successful_page (a (length log + k)) = true /\
    reply_has_cursor (a (length log + k)) = false.
Proof.
  induction fuel as [|fuel IH]; intros log p acc cs log' H; [discriminate H|].
  rewrite fetch_loop_answering in H.
  destruct (a (length log)) as [resp|] eqn:R; [|discriminate H].
  pose proof (handle_response_spec resp p acc) as HS.
  destruct (handle_response resp p acc) as [[cs'|p' cs']|e];
    [| |discriminate H].
  - injection H as <- <-. exists 0. rewrite Nat.add_0_r, R, length_app.
    cbn [length]. repeat split; try lia; apply HS.
  - apply IH in H as (k & K & L & Hi & Hk1 & Hk2).
    rewrite length_app in *. cbn [length] in *.
    exists (S k). repeat split; try lia.
    + destruct i as [|i].
      * rewrite Nat.add_0_r, R. apply HS.
      * replace (length log + S i) with (length log + 1 + i) by lia.
        apply Hi. lia.
    + destruct i as [|i].
      * rewrite Nat.add_0_r, R. apply HS.
      * replace (length log + S i) with (length log + 1 + i) by lia.
        apply Hi. lia.
    + replace (length log + S k) with (length log + 1 + k) by lia. exact Hk1.
    + replace (length log + S k) with (length log + 1 + k) by lia. exact Hk2.
Qed.

Lemma fetch_loop_returns (a : nat -> reply) (k : nat) :
  forall (log : list params) (p : params) (acc : list json) (fuel : nat),
  k < fuel ->
  (forall i, i < k ->
             successful_page (a (length log + i)) = true /\
             reply_has_cursor (a (length log + i)) = true) ->
  successful_page (a (length log + k)) = true ->
  reply_has_cursor (a (length log + k)) = false ->
  exists cs log',
    fetch_loop fuel (answering a) log p acc = (Some (Ok cs), log') /\
    length log' = length log + S k.
Proof.
  induction k as [|k IH]; intros log p acc fuel F Hi Hk1 Hk2;
    (destruct fuel as [|fuel]; [lia|]); rewrite fetch_loop_answering.
  - rewrite Nat.add_0_r in Hk1, Hk2.
    destruct (a (length log)) as [resp|]; [|discriminate Hk1].
    pose proof (handle_response_spec resp p acc) as HS.
    destruct (handle_response resp p acc) as [[cs'|p' cs']|e].
    + exists cs', (log ++ [p]). split; [reflexivity|].
      rewrite length_app. reflexivity.
    + destruct HS as [_ HS]. congruence.
    + congruence.
  - destruct (Hi 0) as [H1 H2]; [lia|]. rewrite Nat.add_0_r in H1, H2.
    destruct (a (length log)) as [resp|] eqn:R; [|discriminate H1].
    pose proof (handle_response_spec resp p acc) as HS.
    destruct (handle_response resp p acc) as [[cs'|p' cs']|e].
    + destruct HS as [_ HS]. congruence.
    + destruct (IH (log ++ [p]) p' cs' fuel) as (cs & log' & E & L);
        try lia.
      * intros i I. rewrite length_app. cbn [length].
        replace (length log + 1 + i) with (length log + S i) by lia.
        apply Hi. lia.
      * rewrite length_app. cbn [length].
        now replace (length log + 1 + k) with (length log + S k) by lia.
      * rewrite length_app. cbn [length].
        now replace (length log + 1 + k) with (length log + S k) by lia.
      * exists cs, log'. split; [exact E|].
        rewrite L, length_app. cbn [length]. lia.
    + congruence.
Qed.

(** Pages of one comment each: as many with a cursor as wanted, then
    one without. *)
Lemma long_run (n : nat) (video_id : str) (api_key : json) (max_results : Z) :
  exists (a : api) (cs : list json) (log : list params),
    fetch_all_comments (S n) a [] video_id api_key max_results =
    (Some (Ok cs), log) /\
    length log = S n /\ length cs = S n.
Proof.
  set (item := comment_item (JStr (chars "hello"))).
  set (pg := page_of [item] (Some (JStr (chars "more")))).
  set (last := page_of [item] None).
  eexists (pages_api (repeat pg n ++ [last])), _, _.
  rewrite fetch_all_comments_eq.
  split; [apply (@fetch_loop_pages _ _ _ _ (repeat pg n) last)|].
  - apply Forall_app. split; [|now repeat constructor].
    apply Forall_forall. intros d I. now apply repeat_spec in I as ->.
  - apply Forall_forall. intros d I. now apply repeat_spec in I as ->.
  - reflexivity.
  - apply serves_pages_api.
  - rewrite repeat_length. lia.
  - cbn [app]. rewrite requests_length, length_app, repeat_length.
    split; [cbn [length]; lia|].
    rewrite flat_map_app, length_app. cbn [flat_map length].
    assert (length (flat_map page_texts (repeat pg n)) = n) as ->; [|cbn; lia].
    clear. induction n as [|n IH]; [reflexivity|].
    cbn [repeat flat_map]. rewrite length_app, IH. reflexivity.
Qed.

(** C3, as the code has it. The loop returns after its (k+1)-th
    request exactly when the first k replies are successful pages that
    carry a cursor and the next one is a successful page that carries
    none, where a page carries no cursor when the field is absent and
    also when its value is null, false, zero or empty; and no bound
    stops the loop earlier: for every N some API makes it send more
    than N requests and return more than N comments. *)
Theorem loop_exit (a : api) (video_id : str) (api_key : json)
        (max_results : Z) :
  (forall k,
     (exists fuel cs log,
        fetch_all_comments fuel a [] video_id api_key max_results =
        (Some (Ok cs), log) /\ length log = S k) <->
     ((forall i,
         i < k ->
         successful_page (reply_at a video_id api_key max_results i) = true /\
         reply_has_cursor (reply_at a video_id api_key max_results i) = true) /\
      successful_page (reply_at a video_id api_key max_results k) = true /\
      reply_has_cursor (reply_at a video_id api_key max_results k) = false)) /\
  (forall N,
     exists a' fuel cs log,
       fetch_all_comments fuel a' [] video_id api_key max_results =
       (Some (Ok cs), log) /\ N < length log /\ N < length cs).
Proof.
  set (reply_to := reply_at a video_id api_key max_results). split.
  - intros k. split.
    + intros (fuel & cs & log & E & L).
      rewrite fetch_all_comments_replies, fetch_all_comments_eq in E.
      apply fetch_loop_returns_inv in E as (k' & _ & L' & Hi & Hk1 & Hk2).
      cbn [length Nat.add] in *.
      assert (k' = k) as -> by lia. auto.
    + intros (Hi & Hk1 & Hk2).
      destruct (@fetch_loop_returns reply_to k []
                  (page_request video_id api_key max_results None) [] (S k))
        as (cs & log & E & L); auto.
      exists (S k), cs, log.
      rewrite fetch_all_comments_replies, fetch_all_comments_eq. auto.
  - intros N.
    destruct (long_run N video_id api_key max_results)
      as (a' & cs & log & E & L1 & L2).
    exists a', (S N), cs, log. repeat split; [exact E | lia | lia].
Qed.

(** C3 as stated fails: a page whose cursor field is present but empty
    ends the loop, although a further page could be fetched. *)
Lemma empty_cursor_ends_loop :
  let page1 := page_of [comment_item (JStr (chars "one"))] (Some (JStr [])) in
  let page2 := page_of [comment_item (JStr (chars "two"))] None in
  page_cursor page1 = Some (JStr []) /\
  fetch_all_comments 5 (pages_api [page1; page2]) []
    (chars "dQw4w9WgXcQ") (JStr (chars "KEY")) 100 =
  (Some (Ok [JStr (chars "one")]), [sample_params]).
Proof. split; reflexivity. Qed.

(** ** analyze_comments *)

(** The float comparison [score >= 0] decides the sign of the exact
    value of the score. *)
Lemma score_ge_zero_value (score : spec_float) (q : Q) :
  float_value score = Some q ->
  (score_ge_zero score = true <-> (0 <= q)%Q) /\
  (score_ge_zero score = false <-> (q < 0)%Q).
Proof.
  destruct score as [s|s| |s m e]; try discriminate; intros [= <-];
    cbv [score_ge_zero float_zero SFleb SFcompare].
  - split; split; intros H; try reflexivity; try discriminate H.
    apply Qle_refl.
  - assert (0 < inject_Z (Zpos m) * Qpower 2 e)%Q as P.
    { apply Qmult_lt_0_compat; [reflexivity|]. now apply Qpower_0_lt. }
    destruct s.
    + assert (-1 * inject_Z (Zpos m) * Qpower 2 e < 0)%Q as N.
      { rewrite <- Qmult_assoc.
        setoid_replace (-1 * (inject_Z (Zpos m) * Qpower 2 e))%Q
          with (- (inject_Z (Zpos m) * Qpower 2 e))%Q by ring.
        apply Qopp_lt_compat in P. exact P. }
      split; split; intros H; try reflexivity; try exact N.
      * discriminate H.
      * exfalso. apply Qle_not_lt in H. contradiction.
    + rewrite <- Qmult_assoc, Qmult_1_l.
      split; split; intros H; try reflexivity.
      * now apply Qlt_le_weak.
      * discriminate H.
      * exfalso. apply (Qlt_irrefl 0). eapply Qlt_trans; eassumption.
Qed.

Lemma nth_error_analyze (scorer : json -> spec_float) (comments : list json) :
  forall i,
  nth_error (analyze_comments scorer comments) i =
  option_map (fun c => {| comment := c;
                          sentiment := if score_ge_zero (scorer c)
                                       then 1%Z else 0%Z |})
             (nth_error comments i).
Proof.
  induction comments as [|c comments IH]; intros [|i]; try reflexivity.
  cbn [analyze_comments nth_error]. apply IH.
Qed.

(** C5. For every comment and every score the scorer gives it - a
    compound score is a finite double, between -1 and 1 - the row of the
    comment has sentiment 1 exactly when the exact value of the score is
    at least 0 and sentiment 0 exactly when it is below 0; nothing is
    rounded, so a score of 0.0 gives 1. *)
Theorem label_threshold (scorer : json -> spec_float) (comments : list json)
        (i : nat) (c : json) (q : Q) :
  nth_error comments i = Some c ->
  float_value (scorer c) = Some q ->
  exists r,
    nth_error (analyze_comments scorer comments) i = Some r /\
    comment r = c /\
    (sentiment r = 1%Z <-> (0 <= q)%Q) /\
    (sentiment r = 0%Z <-> (q < 0)%Q).
Proof.
  intros H V. rewrite nth_error_analyze, H. cbn [option_map].
  eexists. split; [reflexivity|]. cbn [comment sentiment].
  split; [reflexivity|].
  destruct (score_ge_zero_value _ V) as [[P1 P2] [N1 N2]].
  destruct (score_ge_zero (scorer c)); split; split; intros G.
  - now apply P1.
  - reflexivity.
  - discriminate G.
  - specialize (N2 G). discriminate N2.
  - discriminate G.
  - specialize (P2 G). discriminate P2.
  - now apply N1.
  - reflexivity.
Qed.

Lemma label_threshold_witness :
  exists r,
    nth_error (analyze_comments sample_scorer sample_comments) 2 = Some r /\
    comment r = JStr (chars "first") /\
    (sentiment r = 1%Z <-> (0 <= 0)%Q) /\
    (sentiment r = 0%Z <-> (0 < 0)%Q).
Proof.
  apply (@label_threshold sample_scorer sample_comments 2
           (JStr (chars "first")) 0%Q); reflexivity.
Defined.

Example label_sample :
  analyze_comments sample_scorer sample_comments =
  [{| comment := JStr (chars "great video!"); sentiment := 1 |};
   {| comment := JStr (chars "terrible, hated it"); sentiment := 0 |};
   {| comment := JStr (chars "first"); sentiment := 1 |}].
Proof. reflexivity. Qed.

(** The comparison is the one of floats: not-a-number is not at least
    zero. *)
Example label_nan :
  analyze_comments (fun _ => S754_nan) [JStr (chars "?")] =
  [{| comment := JStr (chars "?"); sentiment := 0 |}].
Proof. reflexivity. Qed.

(** Negative zero is not below zero, and the smallest negative double
    is. *)
Example label_at_the_threshold :
  analyze_comments
    (fun c => match c with
              | JInt 0 => S754_zero true
              | _ => S754_finite true 1 (-1074)
              end)
    [JInt 0; JInt 1] =
  [{| comment := JInt 0; sentiment := 1 |};
   {| comment := JInt 1; sentiment := 0 |}].
Proof. reflexivity. Qed.

(** C6. [analyze_comments] returns one row per comment, the i-th row
    holding the i-th comment: as many rows as comments, in the same
    order, none dropped, merged or deduplicated. *)
Theorem analyze_one_to_one (scorer : json -> spec_float)
        (comments : list json) :
  length (analyze_comments scorer comments) = length comments /\
  map comment (analyze_comments scorer comments) = comments /\
  (forall i, option_map comment
               (nth_error (analyze_comments scorer comments) i) =
             nth_error comments i).
Proof.
  repeat split.
  - induction comments as [|c comments IH]; [reflexivity|].
    cbn [analyze_comments length]. now rewrite IH.
  - induction comments as [|c comments IH]; [reflexivity|].
    cbn [analyze_comments map comment]. now rewrite IH.
  - intros i. rewrite nth_error_analyze.
    destruct (nth_error comments i); reflexivity.
Qed.

Example analyze_keeps_duplicates :
  map comment
    (analyze_comments sample_scorer
       [JStr (chars "first"); JStr (chars "first")]) =
  [JStr (chars "first"); JStr (chars "first")].
Proof. reflexivity. Qed.

(** ** fetch_route *)

(** C9. For every input from which no video id can be extracted, the
    route sends no request to the API, whatever else the payload holds;
    and when the payload has a key and asks for a supported format, it
    answers 400 with the message that no id could be extracted (that the
    URL is missing, when the input is empty). *)
Theorem no_id_no_request (fuel : nat) (a : api)
        (scorer : json -> result spec_float)
        (write_error : writer -> list row -> option exn)
        (data : json) (url : str) :
  field (chars "video_url") data = Some (JStr url) ->
  extract_video_id url = None ->
  snd (fetch_route fuel a scorer write_error (Some data)) = [] /\
  (forall api_key,
     field (chars "api_key") data = Some api_key ->
     py_truthy api_key = true ->
     supported_format data = true ->
     fst (fetch_route fuel a scorer write_error (Some data)) =
     Some (JsonError 400
             match url with
             | [] => chars "Missing video_url"
             | _ => could_not_extract
             end)).
Proof.
  intros U X. destruct data as [| | | | | |kv]; try discriminate U.
  cbn [field] in U. unfold fetch_route, supported_format.
  assert (py_truthy (JObj kv) = true) as T by (destruct kv; [discriminate U | reflexivity]).
  rewrite T. cbn [negb py_get field]. rewrite U.
  destruct (assoc (chars "api_key") kv) as [k|];
    destruct (assoc (chars "format") kv) as [f|]; cbn [bind].
  - destruct (py_lower (py_or f (JStr (chars "csv")))) as [fmt|e].
    + split.
      * destruct (py_truthy k); [|reflexivity]. cbn [negb].
        destruct url as [|c url]; [reflexivity|]. cbn [py_truthy negb].
        destruct (existsb (str_eqb fmt) formats); [|reflexivity].
        cbn [negb]. now rewrite X.
      * intros ? [= <-] -> ->. cbn [negb].
        destruct url as [|c url]; [reflexivity|]. cbn [py_truthy negb].
        now rewrite X.
    + split; [reflexivity|]. intros ? _ _ F. discriminate F.
  - change (py_lower (py_or JNull (JStr (chars "csv")))) with (Ok (chars "csv")).
    split.
    + destruct (py_truthy k); [|reflexivity]. cbn [negb].
      destruct url as [|c url]; [reflexivity|]. cbn [py_truthy negb].
      change (existsb (str_eqb (chars "csv")) formats) with true.
      cbn [negb]. now rewrite X.
    + intros ? [= <-] -> _. cbn [negb].
      destruct url as [|c url]; [reflexivity|]. cbn [py_truthy negb].
      change (existsb (str_eqb (chars "csv")) formats) with true.
      cbn [negb]. now rewrite X.
  - destruct (py_lower (py_or f (JStr (chars "csv")))) as [fmt|e];
      (split; [reflexivity | intros ? [=]]).
  - change (py_lower (py_or JNull (JStr (chars "csv")))) with (Ok (chars "csv")).
    split; [reflexivity | intros ? [=]].
Qed.

Lemma no_id_no_request_witness :
  let data := JObj [(chars "api_key", JStr (chars "KEY"));
                    (chars "video_url", JStr (chars "not a link"));
                    (chars "format", JStr (chars "JSON"))] in
  snd (fetch_route 5 (pages_api three_pages) (total sample_scorer)
         writes_all (Some data)) = [] /\
  fst (fetch_route 5 (pages_api three_pages) (total sample_scorer)
         writes_all (Some data)) =
  Some (JsonError 400 could_not_extract).
Proof.
  cbv zeta.
  destruct (@no_id_no_request 5 (pages_api three_pages)
              (total sample_scorer) writes_all
              (JObj [(chars "api_key", JStr (chars "KEY"));
                     (chars "video_url", JStr (chars "not a link"));
                     (chars "format", JStr (chars "JSON"))])
              (chars "not a link") eq_refl eq_refl) as [L R].
  split; [exact L|].
  exact (R (JStr (chars "KEY")) eq_refl eq_refl eq_refl).
Defined.

(** With an id in the input the route does call the API. *)
Example route_fetches :
  fetch_route 5 (pages_api [page_of five_items None])
    (total sample_scorer) writes_all
    (Some (JObj [(chars "api_key", JStr (chars "KEY"));
                 (chars "video_url",
                  JStr (chars "https://youtu.be/dQw4w9WgXcQ"))])) =
  (Some (SendFile (chars "csv")
           (analyze_comments sample_scorer (extractable_texts five_items))),
   [sample_params]).
Proof. reflexivity. Qed.

(** ** Further properties of the pipeline *)

(** X1. A string of fewer than 11 characters holds no id: with no room
    for a marker and a token, and none for the fallback, nothing is
    found. *)
Theorem extract_short_not_found (s : str) :
  length s < 11 -> extract_video_id s = None.
Proof.
  intros L. destruct s as [|c s]; [reflexivity|].
  rewrite extract_unfold by discriminate.
  rewrite search_marker_short by lia.
  rewrite search_fallback_none; [reflexivity| |].
  - apply valid_id_wrong_length. rewrite last_n_all; lia.
  - intros s0 E. apply valid_id_wrong_length.
    apply (f_equal (@List.length ascii)) in E. rewrite length_app in E.
    cbn [length] in *. rewrite last_n_all; lia.
Qed.

Lemma extract_short_not_found_witness :
  extract_video_id (chars "youtu.be/x") = None.
Proof. apply extract_short_not_found. cbn. lia. Defined.

(** X2. Whatever [extract_video_id] returns is a video id: 11
    characters, each in [[A-Za-z0-9_-]]. *)
Theorem extracted_id_well_formed (u v : str) :
  extract_video_id u = Some v ->
  length v = 11 /\ Forall (fun c => is_id_char c = true) v.
Proof.
  intros E. apply extract_valid in E. split.
  - now apply valid_id_length.
  - apply Forall_forall. intros c. now apply valid_id_chars.
Qed.

Lemma extracted_id_well_formed_witness :
  length (chars "abcdefghijk") = 11 /\
  Forall (fun c => is_id_char c = true) (chars "abcdefghijk").
Proof.
  apply (@extracted_id_well_formed
           (chars "https://www.youtube.com/watch?dev=abcdefghijklmnop")).
  reflexivity.
Defined.

Lemma next_params_fields (p : params) (d : json) :
  videoId (next_params p d) = videoId p /\
  key (next_params p d) = key p /\
  maxResults (next_params p d) = maxResults p.
Proof.
  unfold next_params. destruct (page_cursor d); repeat split; reflexivity.
Qed.

Lemma requests_follow (pages : list json) :
  forall (p : params) (i : nat) (d : json),
  nth_error pages i = Some d -> S i < length pages ->
  has_cursor d = true ->
  exists r,
    nth_error (requests p pages) (S i) = Some r /\
    pageToken r = page_cursor d /\
    videoId r = videoId p /\ key r = key p /\ maxResults r = maxResults p.
Proof.
  induction pages as [|d0 pages IH]; intros p i d H L C; [destruct i; discriminate H|].
  destruct i as [|i].
  - injection H as ->. destruct pages as [|d1 pages]; [cbn in L; lia|].
    exists (next_params p d). split; [reflexivity|].
    split; [|apply next_params_fields].
    apply has_cursor_true in C as (tok & T & _).
    unfold next_params. now rewrite T.
  - cbn [nth_error] in H. cbn [length] in L.
    destruct (IH (next_params p d0) i d H) as (r & R & T & F1 & F2 & F3);
      [lia | exact C |].
    exists r. split; [exact R|]. split; [exact T|].
    destruct (next_params_fields p d0) as (G1 & G2 & G3).
    repeat split; congruence.
Qed.

(** X5. The requests of a run thread the cursor: the first request
    carries no page token, and the request that follows a page carries
    the cursor of that page, with the same video id, key and page size. *)
Theorem cursor_threaded (a : api) (pages : list json) (last : json)
        (video_id : str) (api_key : json) (max_results : Z) (fuel : nat) :
  Forall (fun d => api_page d = true) (pages ++ [last]) ->
  Forall (fun d => has_cursor d = true) pages ->
  has_cursor last = false ->
  serves a video_id api_key max_results (pages ++ [last]) ->
  length pages < fuel ->
  exists first log,
    snd (fetch_all_comments fuel a [] video_id api_key max_results) =
    first :: log /\
    pageToken first = None /\ videoId first = video_id /\
    key first = api_key /\ maxResults first = max_results /\
    forall i d, nth_error pages i = Some d ->
                exists r, nth_error log i = Some r /\
                          pageToken r = page_cursor d /\
                          videoId r = video_id /\ key r = api_key /\
                          maxResults r = max_results.
Proof.
  intros A C N Hs F. rewrite fetch_all_comments_eq.
  rewrite (@fetch_loop_pages a video_id api_key max_results pages last)
    by assumption.
  cbn [snd app].
  match goal with
  | |- context [requests ?p0 _] => set (p := p0)
  end.
  assert (exists d0 rest, pages ++ [last] = d0 :: rest) as (d0 & rest & E).
  { destruct pages; cbn [app]; eauto. }
  exists p, (requests (next_params p d0) rest).
  rewrite E. repeat split.
  intros i d H.
  destruct (@requests_follow (pages ++ [last]) p i d) as (r & R & T & G);
    try assumption.
  - rewrite nth_error_app1; [exact H|]. apply nth_error_Some. congruence.
  - rewrite length_app. cbn [length].
    assert (i < length pages) by (apply nth_error_Some; congruence). lia.
  - rewrite Forall_forall in C. apply C. eapply nth_error_In. exact H.
  - rewrite E in R. cbn [requests nth_error] in R. exists r. auto.
Qed.

Lemma cursor_threaded_witness :
  exists first log,
    snd (fetch_all_comments 3 (paged_server three_pages) []
           (chars "dQw4w9WgXcQ") (JStr (chars "KEY")) 100) = first :: log /\
    pageToken first = None /\ videoId first = chars "dQw4w9WgXcQ" /\
    key first = JStr (chars "KEY") /\ maxResults first = 100%Z /\
    forall i d,
      nth_error [page_of (numbered_items 0 100) (Some (JStr (chars "CAEQAA")));
                 page_of (numbered_items 1 100) (Some (JStr (chars "CAIQAA")))]
                i = Some d ->
      exists r, nth_error log i = Some r /\
                pageToken r = page_cursor d /\
                videoId r = chars "dQw4w9WgXcQ" /\
                key r = JStr (chars "KEY") /\ maxResults r = 100%Z.
Proof.
  apply (@cursor_threaded (paged_server three_pages)
           [page_of (numbered_items 0 100) (Some (JStr (chars "CAEQAA")));
            page_of (numbered_items 1 100) (Some (JStr (chars "CAIQAA")))]
           (page_of (numbered_items 2 100) None)).
  - repeat (apply Forall_cons; [vm_compute; reflexivity|]). apply Forall_nil.
  - repeat (apply Forall_cons; [vm_compute; reflexivity|]). apply Forall_nil.
  - vm_compute; reflexivity.
  - intros [|[|[|[|i]]]] d H; cbn in H; try discriminate H;
      injection H as <-; reflexivity.
  - cbn [length]. lia.
Defined.

(** The labelling as the view runs it. When the scorer scores every
    comment, the rows are those of [analyze_comments]. *)
Lemma analyze_comments_scored (scorer : json -> result spec_float)
      (s : json -> spec_float) (comments : list json) :
  Forall (fun c => scorer c = Ok (s c)) comments ->
  analyze_comments_raising scorer comments = Ok (analyze_comments s comments).
Proof.
  induction 1 as [|c rest Hc _ IH]; [reflexivity|].
  cbn [analyze_comments_raising analyze_comments]. rewrite Hc. cbn [bind].
  now rewrite IH.
Qed.

(** When it raises on a comment, having scored those before, the
    labelling raises that error and no row is made. *)
Lemma analyze_comments_raises (scorer : json -> result spec_float)
      (s : json -> spec_float) (before after : list json) (c : json)
      (e : exn) :
  Forall (fun c => scorer c = Ok (s c)) before ->
  scorer c = Raise e ->
  analyze_comments_raising scorer (before ++ c :: after) = Raise e.
Proof.
  intros B E.
  induction B as [|b rest Hb _ IH]; cbn [app analyze_comments_raising].
  - now rewrite E.
  - rewrite Hb. cbn [bind]. now rewrite IH.
Qed.

Lemma analyze_comments_total (s : json -> spec_float)
      (comments : list json) :
  analyze_comments_raising (total s) comments =
  Ok (analyze_comments s comments).
Proof. apply analyze_comments_scored, Forall_forall. reflexivity. Qed.



(** A comment that is not text is fetched, and fails the labelling: the
    route answers 500. *)
Example route_comment_not_text :
  fetch_route 5
    (paged_server [page_of [comment_item (JStr (chars "fine"));
                            comment_item (JInt 5)] None])
    text_scorer writes_all
    (Some (JObj [(chars "api_key", JStr (chars "KEY"));
                 (chars "video_url", JStr (chars "dQw4w9WgXcQ"))])) =
  (Some (JsonException TypeError), [sample_params]).
Proof. reflexivity. Qed.

(** A comment with a control character cannot be put in a worksheet:
    asked for xlsx the route answers 500, asked for csv it sends the
    file. *)
Example route_worksheet_refused :
  let page := page_of [comment_item (JStr (chars "bell" ++ [ascii_of_nat 7]))]
                      None in
  let payload (f : str) :=
    Some (JObj [(chars "api_key", JStr (chars "KEY"));
                (chars "video_url", JStr (chars "dQw4w9WgXcQ"));
                (chars "format", JStr f)]) in
  fst (fetch_route 5 (paged_server [page]) text_scorer excel_refuses_control
         (payload (chars "xlsx"))) =
  Some (JsonException (OtherError (chars "IllegalCharacterError"))) /\
  fst (fetch_route 5 (paged_server [page]) text_scorer excel_refuses_control
         (payload (chars "csv"))) =
  Some (SendFile (chars "csv")
          [{| comment := JStr (chars "bell" ++ [ascii_of_nat 7]);
              sentiment := 1 |}]).
Proof. split; reflexivity. Qed.

Example route_reports_api_error :
  fst (fetch_route 5 quota_script (total sample_scorer) writes_all
         (Some (JObj [(chars "api_key", JStr (chars "KEY"));
                      (chars "video_url", JStr (chars "dQw4w9WgXcQ"))]))) =
  Some (JsonException
          (RuntimeError [Text (chars "YouTube API error: ");
                         Value (JStr (chars "quota exceeded"))])).
Proof. reflexivity. Qed.

(** ** Every run of the loop, whatever the API answers *)

Lemma handle_response_texts (resp : response) (p : params) (acc : list json)
      (t : turn) :
  handle_response resp p acc = Ok t ->
  turn_comments t = acc ++ reply_texts (Reply resp).
Proof.
  destruct resp as [status [data|]]; [|discriminate].
  unfold reply_texts. cbn [resp_json].
  destruct (status =? 200)%Z eqn:E.
  - apply Z.eqb_eq in E. subst status.
    destruct data as [| | | | | |kv]; try discriminate.
    rewrite (@handle_object _ kv) by reflexivity. cbn [body_texts].
    destruct (assoc (chars "items") kv) as [v|].
    + destruct (py_iter v) as [its|e]; [|discriminate]. cbn [bind].
      rewrite collect_spec.
      destruct (forallb item_object its); [|discriminate]. cbn [bind].
      destruct (assoc (chars "nextPageToken") kv) as [tok|];
        [destruct (py_truthy tok)|]; now intros [= <-].
    + cbn [py_iter bind collect]. rewrite app_nil_r.
      destruct (assoc (chars "nextPageToken") kv) as [tok|];
        [destruct (py_truthy tok)|]; now intros [= <-].
  - unfold handle_response. cbn [status_code resp_json]. rewrite E.
    cbn [negb]. destruct (py_get data (chars "error") (JObj [])) as [err|e];
      [|discriminate].
    cbn [bind]. destruct (py_get err _ _); discriminate.
Qed.

Lemma fetch_loop_returns_texts (a : nat -> reply) (fuel : nat) :
  forall (log : list params) (p : params) (acc cs : list json)
         (log' : list params),
  fetch_loop fuel (answering a) log p acc = (Some (Ok cs), log') ->
  exists n,
    length log' = length log + n /\
    cs = acc ++ flat_map (fun i => reply_texts (a i)) (seq (length log) n).
Proof.
  induction fuel as [|fuel IH]; intros log p acc cs log' H; [discriminate H|].
  rewrite fetch_loop_answering in H.
  destruct (a (length log)) as [resp|] eqn:R; [|discriminate H].
  pose proof (@handle_response_texts resp p acc) as T.
  destruct (handle_response resp p acc) as [[cs'|p' cs']|e];
    [| |discriminate H]; specialize (T _ eq_refl); cbn [turn_comments] in T.
  - injection H as <- <-. exists 1. rewrite length_app. cbn [length seq flat_map].
    rewrite R, app_nil_r. auto.
  - apply IH in H as (n & L & E). rewrite length_app in L, E.
    cbn [length] in L, E. exists (S n). split; [lia|].
    cbn [seq flat_map]. rewrite R, E, T, <- app_assoc.
    now rewrite Nat.add_1_r.
Qed.

(** X7. Whatever the API answers, when [fetch_all_comments] returns, it
    returns exactly the texts of the items of the responses it fetched,
    response after response and item after item: nothing else, nothing
    twice, nothing missing. *)
Theorem fetch_returns_fetched_texts (a : api) (video_id : str)
        (api_key : json) (max_results : Z) (fuel : nat) (cs : list json)
        (log : list params) :
  fetch_all_comments fuel a [] video_id api_key max_results =
  (Some (Ok cs), log) ->
  cs = flat_map
         (fun i => reply_texts (reply_at a video_id api_key max_results i))
         (seq 0 (length log)).
Proof.
  rewrite fetch_all_comments_replies, fetch_all_comments_eq. intros H.
  apply fetch_loop_returns_texts in H as (n & L & E).
  cbn [length Nat.add app] in L, E. now rewrite L.
Qed.

Lemma fetch_returns_fetched_texts_witness :
  [JStr (chars "one")] =
  flat_map (fun i => reply_texts
                       (reply_at
                          (paged_server
                             [page_of [comment_item (JStr (chars "one"))]
                                      (Some (JStr []));
                              page_of [comment_item (JStr (chars "two"))]
                                      None])
                          (chars "dQw4w9WgXcQ") (JStr (chars "KEY")) 100 i))
           (seq 0 (length [sample_params])).
Proof.
  apply (@fetch_returns_fetched_texts _ (chars "dQw4w9WgXcQ")
           (JStr (chars "KEY")) 100 5).
  reflexivity.
Defined.

Lemma fetch_loop_raises_inv (a : nat -> reply) (fuel : nat) :
  forall (log : list params) (p : params) (acc : list json) (e : exn)
         (log' : list params),
  fetch_loop fuel (answering a) log p acc = (Some (Raise e), log') ->
  exists k,
    length log' = length log + S k /\
    (forall i, i < k -> goes_on (a (length log + i)) = true) /\
    successful_page (a (length log + k)) = false.
Proof.
  induction fuel as [|fuel IH]; intros log p acc e log' H; [discriminate H|].
  rewrite fetch_loop_answering in H.
  destruct (a (length log)) as [resp|] eqn:R.
  - pose proof (handle_response_spec resp p acc) as HS.
    destruct (handle_response resp p acc) as [[cs'|p' cs']|e'];
      [discriminate H| |].
    + apply IH in H as (k & L & Hi & Hk).
      rewrite length_app in *. cbn [length] in *.
      exists (S k). split; [lia|]. split.
      * intros [|i] I.
        -- rewrite Nat.add_0_r, R. unfold goes_on.
           destruct HS as [-> ->]. reflexivity.
        -- replace (length log + S i) with (length log + 1 + i) by lia.
           apply Hi. lia.
      * now replace (length log + S k) with (length log + 1 + k) by lia.
    + injection H as <- <-. exists 0. rewrite Nat.add_0_r, R, length_app.
      split; [reflexivity|]. split; [intros i I; lia | exact HS].
  - injection H as <- <-. exists 0. rewrite Nat.add_0_r, R, length_app.
    split; [reflexivity|]. split; [intros i I; lia | reflexivity].
Qed.

Lemma goes_on_continues (a : nat -> reply) (log : list params) (p : params)
      (acc : list json) (fuel : nat) :
  goes_on (a (length log)) = true ->
  exists p' acc',
    fetch_loop (S fuel) (answering a) log p acc =
    fetch_loop fuel (answering a) (log ++ [p]) p' acc'.
Proof.
  intros G. rewrite fetch_loop_answering. unfold goes_on in G.
  apply andb_prop in G as [G1 G2].
  destruct (a (length log)) as [resp|]; [|discriminate G1].
  pose proof (handle_response_spec resp p acc) as HS.
  destruct (handle_response resp p acc) as [[cs'|p' cs']|e].
  - destruct HS as [_ HS]. congruence.
  - now exists p', cs'.
  - congruence.
Qed.

Lemma fetch_loop_raises (a : nat -> reply) (k : nat) :
  forall (log : list params) (p : params) (acc : list json) (fuel : nat),
  k < fuel ->
  (forall i, i < k -> goes_on (a (length log + i)) = true) ->
  successful_page (a (length log + k)) = false ->
  exists e log',
    fetch_loop fuel (answering a) log p acc = (Some (Raise e), log') /\
    length log' = length log + S k.
Proof.
  induction k as [|k IH]; intros log p acc fuel F Hi Hk;
    (destruct fuel as [|fuel]; [lia|]).
  - rewrite Nat.add_0_r in Hk. rewrite fetch_loop_answering.
    destruct (a (length log)) as [resp|].
    + pose proof (handle_response_spec resp p acc) as HS.
      destruct (handle_response resp p acc) as [[cs'|p' cs']|e].
      * destruct HS as [HS _]. congruence.
      * destruct HS as [HS _]. congruence.
      * exists e, (log ++ [p]). now rewrite length_app.
    + exists RequestException, (log ++ [p]). now rewrite length_app.
  - destruct (@goes_on_continues a log p acc fuel) as (p' & acc' & E).
    { rewrite <- (Nat.add_0_r (length log)). apply Hi. lia. }
    rewrite E.
    destruct (IH (log ++ [p]) p' acc' fuel) as (e & log' & E' & L);
      try lia.
    + intros i I. rewrite length_app. cbn [length].
      replace (length log + 1 + i) with (length log + S i) by lia.
      apply Hi. lia.
    + rewrite length_app. cbn [length].
      now replace (length log + 1 + k) with (length log + S k) by lia.
    + exists e, log'. split; [exact E'|].
      rewrite L, length_app. cbn [length]. lia.
Qed.

(** X8. The fetch fails on its (k+1)-th request exactly when the first
    k replies are successful pages with a cursor and the next reply is
    not a successful page (no reply, no JSON, a status other than 200,
    or a page whose items cannot be processed): the first such reply
    ends the run, with no further request. *)
Theorem fetch_fails_at_first_bad_reply (a : api) (video_id : str)
        (api_key : json) (max_results : Z) (k : nat) :
  (exists fuel e log,
     fetch_all_comments fuel a [] video_id api_key max_results =
     (Some (Raise e), log) /\ length log = S k) <->
  ((forall i, i < k ->
              goes_on (reply_at a video_id api_key max_results i) = true) /\
   successful_page (reply_at a video_id api_key max_results k) = false).
Proof.
  split.
  - intros (fuel & e & log & E & L).
    rewrite fetch_all_comments_replies, fetch_all_comments_eq in E.
    apply fetch_loop_raises_inv in E as (k' & L' & Hi & Hk).
    cbn [length Nat.add] in *. assert (k' = k) as -> by lia. auto.
  - intros (Hi & Hk).
    destruct (@fetch_loop_raises (reply_at a video_id api_key max_results) k
                [] (page_request video_id api_key max_results None) [] (S k))
      as (e & log & E & L); auto.
    exists (S k), e, log.
    rewrite fetch_all_comments_replies, fetch_all_comments_eq. auto.
Qed.

(** The error with which the run ends at the first reply that is not a
    successful page, when every turn on that reply raises it. *)
Lemma fetch_loop_raises_exn (a : nat -> reply) (k : nat) (e : exn) :
  forall (log : list params) (p : params) (acc : list json) (fuel : nat),
  k < fuel ->
  (forall i, i < k -> goes_on (a (length log + i)) = true) ->
  match a (length log + k) with
  | NoReply => e = RequestException
  | Reply resp => forall p' acc', handle_response resp p' acc' = Raise e
  end ->
  exists log',
    fetch_loop fuel (answering a) log p acc = (Some (Raise e), log') /\
    length log' = length log + S k.
Proof.
  induction k as [|k IH]; intros log p acc fuel F Hi Hk;
    (destruct fuel as [|fuel]; [lia|]).
  - rewrite Nat.add_0_r in Hk. rewrite fetch_loop_answering.
    destruct (a (length log)) as [resp|].
    + rewrite Hk. exists (log ++ [p]). now rewrite length_app.
    + subst e. exists (log ++ [p]). now rewrite length_app.
  - destruct (@goes_on_continues a log p acc fuel) as (p' & acc' & E).
    { rewrite <- (Nat.add_0_r (length log)). apply Hi. lia. }
    rewrite E.
    destruct (IH (log ++ [p]) p' acc' fuel) as (log' & E' & L); try lia.
    + intros i I. rewrite length_app. cbn [length].
      replace (length log + 1 + i) with (length log + S i) by lia.
      apply Hi. lia.
    + rewrite length_app. cbn [length].
      now replace (length log + 1 + k) with (length log + S k) by lia.
    + exists log'. split; [exact E'|].
      rewrite L, length_app. cbn [length]. lia.
Qed.

(** X3. A response whose body is not JSON fails the fetch as an invalid
    response, whatever its status: after any number of successful pages
    with a cursor, the fetch raises the error that reads "Invalid JSON
    response from YouTube API", returns none of the comments collected
    before, and sends no further request. *)
Theorem unparseable_body_fails (a : api) (video_id : str) (api_key : json)
        (max_results : Z) (k : nat) (status : Z) (fuel : nat) :
  (forall i, i < k ->
             goes_on (reply_at a video_id api_key max_results i) = true) ->
  reply_at a video_id api_key max_results k =
  Reply {| status_code := status; resp_json := None |} ->
  k < fuel ->
  exists log,
    fetch_all_comments fuel a [] video_id api_key max_results =
    (Some (Raise (RuntimeError
                    [Text (chars "Invalid JSON response from YouTube API")])),
     log) /\
    length log = S k.
Proof.
  intros Hi Hk F. rewrite fetch_all_comments_replies, fetch_all_comments_eq.
  apply (@fetch_loop_raises_exn
           (reply_at a video_id api_key max_results) k); try assumption.
  cbn [length Nat.add]. rewrite Hk. reflexivity.
Qed.

Lemma unparseable_body_fails_witness :
  exists log,
    fetch_all_comments 5
      (script [Reply (page_response
                        (page_of (numbered_items 0 2)
                                 (Some (JStr (chars "CAEQAA")))));
               Reply {| status_code := 200; resp_json := None |}]) []
      (chars "dQw4w9WgXcQ") (JStr (chars "KEY")) 100 =
    (Some (Raise (RuntimeError
                    [Text (chars "Invalid JSON response from YouTube API")])),
     log) /\
    length log = 2.
Proof.
  apply (@unparseable_body_fails _ _ _ _ 1 200).
  - intros i I. assert (i = 0) as -> by lia. reflexivity.
  - reflexivity.
  - lia.
Defined.

(** X4. A request that gets no reply (a timeout, a transport failure)
    fails the fetch at once: after any number of successful pages with
    a cursor, the fetch raises the transport error, returns none of the
    comments collected before, and does not send the request again. *)
Theorem no_reply_fails (a : api) (video_id : str) (api_key : json)
        (max_results : Z) (k : nat) (fuel : nat) :
  (forall i, i < k ->
             goes_on (reply_at a video_id api_key max_results i) = true) ->
  reply_at a video_id api_key max_results k = NoReply ->
  k < fuel ->
  exists log,
    fetch_all_comments fuel a [] video_id api_key max_results =
    (Some (Raise RequestException), log) /\
    length log = S k.
Proof.
  intros Hi Hk F. rewrite fetch_all_comments_replies, fetch_all_comments_eq.
  apply (@fetch_loop_raises_exn
           (reply_at a video_id api_key max_results) k); try assumption.
  cbn [length Nat.add]. now rewrite Hk.
Qed.

Lemma no_reply_fails_witness :
  exists log,
    fetch_all_comments 5
      (script [Reply (page_response
                        (page_of (numbered_items 0 2)
                                 (Some (JStr (chars "CAEQAA")))))]) []
      (chars "dQw4w9WgXcQ") (JStr (chars "KEY")) 100 =
    (Some (Raise RequestException), log) /\
    length log = 2.
Proof.
  apply (@no_reply_fails _ _ _ _ 1).
  - intros i I. assert (i = 0) as -> by lia. reflexivity.
  - reflexivity.
  - lia.
Defined.

(** The first index below [n] at which [P] fails, if any. *)
Lemma first_failure (P : nat -> bool) (n : nat) :
  (forall i, i < n -> P i = true) \/
  (exists j, j < n /\ P j = false /\ forall i, i < j -> P i = true).
Proof.
  induction n as [|n [IH|(j & J & F & B)]].
  - left. intros i I. lia.
  - destruct (P n) eqn:E.
    + left. intros i I. assert (i < n \/ i = n) as [?| ->] by lia; auto.
    + right. exists n. auto.
  - right. exists j. auto.
Qed.

Lemma fetch_loop_goes_on (a : nat -> reply) (fuel : nat) :
  forall (log : list params) (p : params) (acc : list json),
  (forall i, i < fuel -> goes_on (a (length log + i)) = true) ->
  fst (fetch_loop fuel (answering a) log p acc) = None.
Proof.
  induction fuel as [|fuel IH]; intros log p acc H; [reflexivity|].
  destruct (@goes_on_continues a log p acc fuel) as (p' & acc' & E).
  { rewrite <- (Nat.add_0_r (length log)). apply H. lia. }
  rewrite E. apply IH. intros i I. rewrite length_app. cbn [length].
  replace (length log + 1 + i) with (length log + S i) by lia.
  apply H. lia.
Qed.

(** X9. The loop runs for ever exactly when every reply is a successful
    page that carries a cursor: nothing but the replies bounds the
    number of requests. *)
Theorem fetch_never_ends_iff (a : api) (video_id : str) (api_key : json)
        (max_results : Z) :
  (forall fuel,
     fst (fetch_all_comments fuel a [] video_id api_key max_results) = None)
  <-> (forall i, goes_on (reply_at a video_id api_key max_results i) = true).
Proof.
  set (r := reply_at a video_id api_key max_results).
  set (p0 := page_request video_id api_key max_results None).
  assert (forall fuel,
            fetch_all_comments fuel a [] video_id api_key max_results =
            fetch_loop fuel (answering r) [] p0 []) as Eq.
  { intros fuel.
    now rewrite fetch_all_comments_replies, fetch_all_comments_eq. }
  split.
  - intros H i.
    destruct (first_failure (fun j => goes_on (r j)) (S i))
      as [G|(j & J & F & B)]; [apply G; lia|].
    exfalso. specialize (H (S j)). rewrite Eq in H. unfold goes_on in F.
    destruct (successful_page (r j)) eqn:Sj.
    + cbn [andb] in F.
      destruct (@fetch_loop_returns r j [] p0 [] (S j))
        as (cs & log & E & _); auto.
      * intros i' I'. specialize (B i' I'). unfold goes_on in B.
        now apply andb_prop in B.
      * rewrite E in H. discriminate H.
    + destruct (@fetch_loop_raises r j [] p0 [] (S j))
        as (e & log & E & _); auto.
      rewrite E in H. discriminate H.
  - intros H fuel. rewrite Eq. apply fetch_loop_goes_on. intros i _. apply H.
Qed.

(** ** Where an extracted id comes from *)

(** X10. The id [extract_video_id] returns is a piece of the input,
    taken unchanged: it stands right after one of the markers, or it is
    the end of the input, a final newline apart. *)
Theorem extracted_id_is_substring (u v : str) :
  extract_video_id u = Some v ->
  exists before rest,
    u = before ++ v ++ rest /\
    ((exists b m, before = b ++ m /\ In m markers) \/
     rest = [] \/ rest = [newline]).
Proof.
  destruct u as [|c u]; [discriminate|].
  rewrite extract_unfold by discriminate.
  destruct (Re.search marker_pattern (c :: u)) as [mo|] eqn:S1.
  - intros ->. apply search_Some_inv in S1 as (b & s' & E & M).
    apply match_at_marker_Some in M as (g & [= <-] & (m & r & I & -> & _)).
    exists (b ++ m), r. split; [now rewrite E, <- app_assoc|].
    left. now exists b, m.
  - destruct (Re.search fallback_pattern (c :: u)) as [mo|] eqn:S2;
      [|discriminate].
    intros ->. apply search_Some_inv in S2 as (b & s' & E & M).
    apply match_at_fallback_Some in M as (g & [= <-] & _ & [->| ->]).
    + exists b, []. rewrite app_nil_r. auto.
    + exists b, [newline]. auto.
Qed.

Lemma extracted_id_is_substring_witness :
  exists before rest,
    chars "see https://youtu.be/dQw4w9WgXcQ?t=1" =
    before ++ chars "dQw4w9WgXcQ" ++ rest /\
    ((exists b m, before = b ++ m /\ In m markers) \/
     rest = [] \/ rest = [newline]).
Proof. apply extracted_id_is_substring. reflexivity. Defined.

(** ** The item loop *)

(** X11. The item loop is all or nothing: when every item is an object
    down the path to the text it returns the accumulator followed by
    the texts of the items that have one, and as soon as one item has
    another value on that path it raises [TypeError], whatever the
    other items are; it raises nothing else. *)
Theorem item_loop_outcome (items : list json) (acc : list json) :
  (Forall (fun it => item_object it = true) items ->
   collect items acc = Ok (acc ++ extractable_texts items)) /\
  (Exists (fun it => item_object it = false) items ->
   collect items acc = Raise TypeError).
Proof.
  rewrite collect_spec. split.
  - intros F. rewrite Forall_forall in F.
    assert (forallb item_object items = true) as ->
        by (apply forallb_forall; exact F).
    reflexivity.
  - intros E. apply Exists_exists in E as (it & I & O).
    destruct (forallb item_object items) eqn:B; [|reflexivity].
    rewrite forallb_forall in B. rewrite (B it I) in O. discriminate O.
Qed.

Lemma item_loop_outcome_witness :
  collect five_items [JStr (chars "zero")] =
  Ok ([JStr (chars "zero")] ++ extractable_texts five_items) /\
  collect (five_items ++ [null_snippet_item]) [JStr (chars "zero")] =
  Raise TypeError.
Proof.
  split.
  - apply (proj1 (item_loop_outcome five_items [JStr (chars "zero")])).
    repeat (apply Forall_cons; [reflexivity|]). apply Forall_nil.
  - apply (proj2 (item_loop_outcome (five_items ++ [null_snippet_item])
                    [JStr (chars "zero")])).
    apply Exists_exists. exists null_snippet_item.
    split; [|reflexivity]. apply in_or_app. right. now left.
Defined.

(** ** Rows *)

(** X12. Every row of the DataFrame has sentiment 0 or 1, whatever the
    scorer returns, not-a-number and infinities included. *)
Theorem sentiment_binary (scorer : json -> spec_float) (comments : list json)
        (r : row) :
  In r (analyze_comments scorer comments) ->
  sentiment r = 0%Z \/ sentiment r = 1%Z.
Proof.
  induction comments as [|c comments IH]; cbn [analyze_comments In]; [tauto|].
  intros [<-|I]; [|now apply IH].
  cbn [sentiment]. destruct (score_ge_zero (scorer c)); auto.
Qed.

Lemma sentiment_binary_witness :
  sentiment {| comment := JStr (chars "?"); sentiment := 0 |} = 0%Z \/
  sentiment {| comment := JStr (chars "?"); sentiment := 0 |} = 1%Z.
Proof.
  apply (@sentiment_binary (fun _ => S754_nan) [JStr (chars "?")]).
  now left.
Defined.

(** X13. Labelling works comment by comment: the rows of two lists of
    comments put end to end are the rows of the first followed by the
    rows of the second, so that the label of a comment depends on no
    other comment and not on its place. *)
Theorem analyze_app (scorer : json -> spec_float) (xs ys : list json) :
  analyze_comments scorer (xs ++ ys) =
  analyze_comments scorer xs ++ analyze_comments scorer ys.
Proof.
  induction xs as [|c xs IH]; [reflexivity|].
  cbn [app analyze_comments]. now rewrite IH.
Qed.

(** ** The route, case by case *)

Lemma str_eqb_eq (a : str) : forall b, str_eqb a b = true <-> a = b.
Proof.
  induction a as [|x a IH]; intros [|y b]; cbn [str_eqb];
    try (split; [discriminate | discriminate]); [tauto|].
  rewrite andb_true_iff, Ascii.eqb_eq, IH. split.
  - now intros [-> ->].
  - now intros [= -> ->].
Qed.

Lemma requested_format_supported (d : json) (fmt : str) :
  requested_format d = Some fmt -> In fmt formats.
Proof.
  unfold requested_format.
  assert (forall s, existsb (str_eqb s) formats = true -> In s formats) as H.
  { intros s E. apply existsb_exists in E as (x & I & E).
    apply str_eqb_eq in E. now subst. }
  destruct (field (chars "format") d) as [f|].
  - destruct (py_lower _) as [s|e]; [|discriminate].
    destruct (existsb (str_eqb s) formats) eqn:E; [|discriminate].
    intros [= <-]. now apply H.
  - intros [= <-]. now left.
Qed.

(** The view either answers at once, having sent nothing, or reaches
    the fetch with a key, an id and a supported format. *)
Lemma fetch_route_inv (fuel : nat) (a : api)
      (scorer : json -> result spec_float)
      (write_error : writer -> list row -> option exn)
      (data : option json) :
  (exists status msg,
     fetch_route fuel a scorer write_error data =
     (Some (JsonError status msg), [])) \/
  (exists e, (e = AttributeError \/ e = TypeError) /\
             fetch_route fuel a scorer write_error data =
             (Some (Uncaught e), [])) \/
  (exists d api_key url vid fmt,
     data = Some d /\
     field (chars "api_key") d = Some api_key /\ py_truthy api_key = true /\
     field (chars "video_url") d = Some (JStr url) /\
     extract_video_id url = Some vid /\
     requested_format d = Some fmt /\
     fetch_route fuel a scorer write_error data =
     match fetch_all_comments fuel a [] vid api_key 100 with
     | (None, log) => (None, log)
     | (Some (Raise exc), log) => (Some (JsonException exc), log)
     | (Some (Ok comments), log) =>
         match analyze_comments_raising scorer comments with
         | Raise exc => (Some (JsonException exc), log)
         | Ok df =>
             match write_error (written_by (attachment_for fmt)) df with
             | Some exc => (Some (JsonException exc), log)
             | None => (Some (SendFile fmt df), log)
             end
         end
     end).
Proof.
  destruct data as [d|]; [|left; now eexists _, _].
  unfold fetch_route.
  destruct (py_truthy d) eqn:Td; cbn [negb]; [|left; now eexists _, _].
  destruct d as [| | | | | |kv];
    try (right; left; eexists; split; [left|]; reflexivity).
  cbn [py_get].
  set (k := match assoc (chars "api_key") kv with
            | Some x => Ok x | None => Ok JNull end).
  assert (k = Ok match assoc (chars "api_key") kv with
                 | Some x => x | None => JNull end) as ->
      by (subst k; destruct (assoc (chars "api_key") kv); reflexivity).
  set (u := match assoc (chars "video_url") kv with
            | Some x => Ok x | None => Ok JNull end).
  assert (u = Ok match assoc (chars "video_url") kv with
                 | Some x => x | None => JNull end) as ->
      by (subst u; destruct (assoc (chars "video_url") kv); reflexivity).
  set (f := match assoc (chars "format") kv with
            | Some x => Ok x | None => Ok JNull end).
  assert (f = Ok match assoc (chars "format") kv with
                 | Some x => x | None => JNull end) as ->
      by (subst f; destruct (assoc (chars "format") kv); reflexivity).
  cbn [bind].
  destruct (py_lower _) as [fmt|e] eqn:Pl.
  2:{ right; left. exists e. split; [left|reflexivity].
      unfold py_lower in Pl. destruct (py_or _ _); congruence. }
  destruct (assoc (chars "api_key") kv) as [key|] eqn:Ak;
    [|left; now eexists _, _].
  destruct (py_truthy key) eqn:Tk; cbn [negb]; [|left; now eexists _, _].
  destruct (assoc (chars "video_url") kv) as [url|] eqn:Au;
    [|left; now eexists _, _].
  destruct (py_truthy url) eqn:Tu; cbn [negb]; [|left; now eexists _, _].
  destruct (existsb (str_eqb fmt) formats) eqn:Ef; cbn [negb];
    [|left; now eexists _, _].
  destruct url as [| | | |url| |];
    try (right; left; eexists; split; [right|]; reflexivity).
  destruct (extract_video_id url) as [vid|] eqn:X; [|left; now eexists _, _].
  right; right. exists (JObj kv), key, url, vid, fmt.
  repeat split; try assumption.
  unfold requested_format. cbn [field].
  destruct (assoc (chars "format") kv) as [f0|].
  - now rewrite Pl, Ef.
  - now injection Pl as <-.
Qed.

(** X14. The route sends a request to the API only for a payload that
    is an object with a key, a URL holding a video id and a supported
    format: every other payload is answered without any request. *)
Theorem route_requests_only_when_valid (fuel : nat) (a : api)
        (scorer : json -> result spec_float)
        (write_error : writer -> list row -> option exn) (data : option json) :
  snd (fetch_route fuel a scorer write_error data) <> [] ->
  exists d api_key url vid fmt,
    data = Some d /\
    field (chars "api_key") d = Some api_key /\ py_truthy api_key = true /\
    field (chars "video_url") d = Some (JStr url) /\
    extract_video_id url = Some vid /\
    requested_format d = Some fmt.
Proof.
  intros N.
  destruct (fetch_route_inv fuel a scorer write_error data)
    as [(st & msg & E)|[(e & _ & E)|(d & k & url & vid & fmt & H)]].
  - rewrite E in N. now contradiction N.
  - rewrite E in N. now contradiction N.
  - exists d, k, url, vid, fmt. tauto.
Qed.

Lemma route_requests_only_when_valid_witness :
  exists d api_key url vid fmt,
    Some (JObj [(chars "api_key", JStr (chars "KEY"));
                (chars "video_url",
                 JStr (chars "https://youtu.be/dQw4w9WgXcQ"))]) = Some d /\
    field (chars "api_key") d = Some api_key /\ py_truthy api_key = true /\
    field (chars "video_url") d = Some (JStr url) /\
    extract_video_id url = Some vid /\
    requested_format d = Some fmt.
Proof.
  apply (@route_requests_only_when_valid 5
           (pages_api [page_of five_items None]) (total sample_scorer)
           writes_all).
  discriminate.
Defined.

(** X15. The file the route sends is named after the format asked for:
    a file is sent only in one of the four formats, its name is
    [yt_comments.] followed by that format, and the last branch of the
    chain, which takes every format that is not xlsx, csv or json,
    writes HTML for the format html alone. *)
Theorem sent_file_matches_format (fuel : nat) (a : api)
        (scorer : json -> result spec_float)
        (write_error : writer -> list row -> option exn) (data : option json)
        (fmt : str) (df : list row) :
  fst (fetch_route fuel a scorer write_error data) = Some (SendFile fmt df) ->
  In fmt formats /\
  download_name (attachment_for fmt) = chars "yt_comments." ++ fmt /\
  (written_by (attachment_for fmt) = to_html -> fmt = chars "html").
Proof.
  intros H.
  assert (In fmt formats) as I.
  { destruct (fetch_route_inv fuel a scorer write_error data)
      as [(st & msg & E)|[(e & _ & E)|(d & k & url & vid & fmt' & R)]].
    - rewrite E in H. discriminate H.
    - rewrite E in H. discriminate H.
    - destruct R as (_ & _ & _ & _ & _ & F & E). rewrite E in H.
      destruct (fetch_all_comments fuel a [] vid k 100) as [[[cs|e]|] log];
        try discriminate H.
      destruct (analyze_comments_raising scorer cs) as [rows|e];
        [|discriminate H].
      destruct (write_error _ rows); [discriminate H|].
      injection H as -> _. eapply requested_format_supported. exact F. }
  split; [exact I|].
  unfold formats in I. cbn [In] in I.
  destruct I as [<-|[<-|[<-|[<-|[]]]]]; split; try reflexivity;
    intros W; discriminate W.
Qed.

Lemma sent_file_matches_format_witness :
  In (chars "json") formats /\
  download_name (attachment_for (chars "json")) =
  chars "yt_comments." ++ chars "json" /\
  (written_by (attachment_for (chars "json")) = to_html ->
   chars "json" = chars "html").
Proof.
  apply (@sent_file_matches_format 5 (pages_api [page_of five_items None])
           (total sample_scorer) writes_all
           (Some (JObj [(chars "api_key", JStr (chars "KEY"));
                        (chars "video_url", JStr (chars "dQw4w9WgXcQ"));
                        (chars "format", JStr (chars "Json"))]))
           (chars "json")
           (analyze_comments sample_scorer (extractable_texts five_items))).
  reflexivity.
Defined.

(** ** The format of the payload *)

Lemma lower_char_idempotent (c : ascii) :
  lower_char (lower_char c) = lower_char c.
Proof.
  unfold lower_char.
  destruct (Re.in_range c ("A"%char, "Z"%char)) eqn:E; [|now rewrite E].
  assert (Re.in_range (ascii_of_nat (nat_of_ascii c + 32))
            ("A"%char, "Z"%char) = false) as ->; [|reflexivity].
  unfold Re.in_range in *. cbn [fst snd] in *.
  apply andb_prop in E as [E1 E2]. apply Nat.leb_le in E1, E2.
  change (nat_of_ascii "A") with 65 in *.
  change (nat_of_ascii "Z") with 90 in *.
  rewrite nat_ascii_embedding by lia.
  apply andb_false_iff. right. apply Nat.leb_gt. lia.
Qed.

Lemma py_lower_lower (f : str) :
  py_lower (py_or (JStr (map lower_char f)) (JStr (chars "csv"))) =
  py_lower (py_or (JStr f) (JStr (chars "csv"))).
Proof.
  destruct f as [|c f]; [reflexivity|].
  cbn [map py_or py_truthy py_lower]. f_equal.
  rewrite lower_char_idempotent. f_equal.
  rewrite map_map. apply map_ext. apply lower_char_idempotent.
Qed.

Lemma assoc_with_format (key : str) (f : json) (kv : list (str * json)) :
  str_eqb (chars "format") key = false ->
  assoc key ((chars "format", f) :: kv) = assoc key kv.
Proof. intros E. cbn [assoc]. now rewrite E. Qed.

(** The view reads the format through its lower-cased form only. *)
Lemma route_format_congr (fuel : nat) (a : api)
      (scorer : json -> result spec_float)
      (write_error : writer -> list row -> option exn)
      (f1 f2 : json) (kv : list (str * json)) :
  py_lower (py_or f1 (JStr (chars "csv"))) =
  py_lower (py_or f2 (JStr (chars "csv"))) ->
  fetch_route fuel a scorer write_error (Some (with_format f1 kv)) =
  fetch_route fuel a scorer write_error (Some (with_format f2 kv)).
Proof.
  intros E. unfold fetch_route, with_format.
  cbn [py_truthy negb py_get].
  rewrite !(@assoc_with_format (chars "api_key")) by reflexivity.
  rewrite !(@assoc_with_format (chars "video_url")) by reflexivity.
  change (assoc (chars "format") ((chars "format", f1) :: kv)) with (Some f1).
  change (assoc (chars "format") ((chars "format", f2) :: kv)) with (Some f2).
  cbn [bind]. now rewrite E.
Qed.

(** X16. The format is read without regard to case: a payload that asks
    for a format in any mix of upper and lower case is answered as the
    same payload asking for it in lower case. *)
Theorem format_case_insensitive (fuel : nat) (a : api)
        (scorer : json -> result spec_float)
        (write_error : writer -> list row -> option exn)
        (f : str) (kv : list (str * json)) :
  fetch_route fuel a scorer write_error (Some (with_format (JStr f) kv)) =
  fetch_route fuel a scorer write_error
    (Some (with_format (JStr (map lower_char f)) kv)).
Proof. apply route_format_congr. symmetry. apply py_lower_lower. Qed.

(** X17. A format that is null, false, zero or empty stands for csv:
    the payload is answered as the same payload asking for csv. *)
Theorem falsy_format_is_csv (fuel : nat) (a : api)
        (scorer : json -> result spec_float)
        (write_error : writer -> list row -> option exn)
        (f : json) (kv : list (str * json)) :
  py_truthy f = false ->
  fetch_route fuel a scorer write_error (Some (with_format f kv)) =
  fetch_route fuel a scorer write_error
    (Some (with_format (JStr (chars "csv")) kv)).
Proof.
  intros T. apply route_format_congr. unfold py_or. now rewrite T.
Qed.

Lemma falsy_format_is_csv_witness :
  fetch_route 5 (pages_api [page_of five_items None])
    (total sample_scorer) writes_all
    (Some (with_format JNull
             [(chars "api_key", JStr (chars "KEY"));
              (chars "video_url", JStr (chars "dQw4w9WgXcQ"))])) =
  fetch_route 5 (pages_api [page_of five_items None])
    (total sample_scorer) writes_all
    (Some (with_format (JStr (chars "csv"))
             [(chars "api_key", JStr (chars "KEY"));
              (chars "video_url", JStr (chars "dQw4w9WgXcQ"))])).
Proof. apply falsy_format_is_csv. reflexivity. Defined.

Example format_upper_case :
  fst (fetch_route 5 (pages_api [page_of five_items None])
         (total sample_scorer) writes_all
         (Some (with_format (JStr (chars "HTML"))
                  [(chars "api_key", JStr (chars "KEY"));
                   (chars "video_url", JStr (chars "dQw4w9WgXcQ"))]))) =
  Some (SendFile (chars "html")
          (analyze_comments sample_scorer (extractable_texts five_items))).
Proof. reflexivity. Qed.

(** ** What escapes the view *)

(** X18. An exception leaves the view only before any request is sent,
    and it is the [AttributeError] of a payload that is not an object
    or of a format that is not a string, or the [TypeError] of a URL
    that is not a string: an error of the fetch never escapes, it is
    answered with status 500. *)
Theorem uncaught_only_from_payload (fuel : nat) (a : api)
        (scorer : json -> result spec_float)
        (write_error : writer -> list row -> option exn)
        (data : option json) (e : exn) :
  fst (fetch_route fuel a scorer write_error data) = Some (Uncaught e) ->
  snd (fetch_route fuel a scorer write_error data) = [] /\
  (e = AttributeError \/ e = TypeError).
Proof.
  intros H.
  destruct (fetch_route_inv fuel a scorer write_error data)
    as [(st & msg & E)|[(e' & T & E)|(d & k & url & vid & fmt & R)]].
  - rewrite E in H. discriminate H.
  - rewrite E in *. injection H as <-. auto.
  - destruct R as (_ & _ & _ & _ & _ & _ & E). rewrite E in H. exfalso.
    destruct (fetch_all_comments fuel a [] vid k 100) as [[[cs|x]|] log];
      try discriminate H.
    destruct (analyze_comments_raising scorer cs) as [rows|x];
      [|discriminate H].
    destruct (write_error _ rows); discriminate H.
Qed.

Lemma uncaught_only_from_payload_witness :
  snd (fetch_route 5 quota_script (total sample_scorer) writes_all
         (Some (JObj [(chars "api_key", JStr (chars "KEY"));
                      (chars "video_url", JStr (chars "dQw4w9WgXcQ"));
                      (chars "format", JInt 5)]))) = [] /\
  (AttributeError = AttributeError \/ AttributeError = TypeError).
Proof. apply uncaught_only_from_payload. reflexivity. Defined.

(** ** No trimming *)

(** X19. The input is not trimmed: a valid id followed by one more
    character that is not an id character, other than a newline, is
    not found any more. *)
Theorem trailing_character_loses_id (t : str) (c : ascii) :
  valid_id t = true -> is_id_char c = false -> c <> newline ->
  extract_video_id (t ++ [c]) = None.
Proof.
  intros V I N. pose proof (valid_id_length _ V) as L.
  rewrite extract_unfold by (destruct t; discriminate).
  rewrite search_marker_short by (rewrite length_app; cbn [length]; lia).
  rewrite search_fallback_none; [reflexivity| |].
  - rewrite last_n_snoc.
    destruct (valid_id (last_n 10 t ++ [c])) eqn:W; [|reflexivity].
    rewrite (valid_id_chars _ c W) in I; [discriminate I|].
    apply in_or_app. right. now left.
  - intros s0 E. apply app_inj_tail in E as [_ E]. contradiction.
Qed.

Lemma trailing_character_loses_id_witness :
  extract_video_id (chars "dQw4w9WgXcQ" ++ [" "%char]) = None.
Proof.
  apply trailing_character_loses_id; [reflexivity | reflexivity | discriminate].
Defined.
